(** * spot_wrapper/spot_images.py: image request catalog and dispatch

    A shallow embedding of [SpotImages] and of the module-level tables it is
    built from.  The vendor SDK (request builder, image client, robot) and the
    logger are external collaborators: the client and the robot are values the
    object holds, the logger and the record of remote calls make up the world
    that every method threads. *)

From stdpp Require Import base option list gmap strings.
From Stdlib Require Import ZArith.

Local Open Scope string_scope.
Local Open Scope list_scope.

(** ** Vendor data: [bosdyn.api.image_pb2] *)

Module image_pb2.

(** The members of [image_pb2.Image] the module names. *)
Inductive Format := FORMAT_JPEG | FORMAT_RAW.

Inductive PixelFormat :=
| PIXEL_FORMAT_GREYSCALE_U8
| PIXEL_FORMAT_RGB_U8
| PIXEL_FORMAT_DEPTH_U16.

(** A request descriptor: what one call of the SDK's builder was given.
    A keyword the call site leaves out is [None]. *)
Record ImageRequest := {
  image_source_name : string;
  image_format : option Format;
  pixel_format : option PixelFormat;
  quality_percent : option Z
}.

End image_pb2.
Export image_pb2.

(** Modelled from the spec: [build_image_request] belongs to the vendor SDK,
    which is not part of the repository.  The spec describes a descriptor as
    the tuple (source name, image encoding, pixel format, quality hint), so
    the builder records its arguments. *)
Definition build_image_request (image_source_name : string)
    (image_format : option Format) (pixel_format : option PixelFormat)
    (quality_percent : option Z) : ImageRequest :=
  {| image_source_name := image_source_name;
     image_format := image_format;
     pixel_format := pixel_format;
     quality_percent := quality_percent |}.

(** ** Module-level tables *)

Definition CAMERA_IMAGE_SOURCES : list string :=
  [ "frontleft_fisheye_image";
    "frontright_fisheye_image";
    "left_fisheye_image";
    "right_fisheye_image";
    "back_fisheye_image" ].

Definition DEPTH_IMAGE_SOURCES : list string :=
  [ "frontleft_depth";
    "frontright_depth";
    "left_depth";
    "right_depth";
    "back_depth" ].

Definition DEPTH_REGISTERED_IMAGE_SOURCES : list string :=
  [ "frontleft_depth_in_visual_frame";
    "frontright_depth_in_visual_frame";
    "right_depth_in_visual_frame";
    "left_depth_in_visual_frame";
    "back_depth_in_visual_frame" ].

(** A dict literal that the constructor iterates: kept in insertion order. *)
Definition IMAGE_SOURCES_BY_CAMERA : list (string * list (string * string)) :=
  [ ("frontleft",
      [ ("visual", "frontleft_fisheye_image");
        ("depth", "frontleft_depth");
        ("depth_registered", "frontleft_depth_in_visual_frame") ]);
    ("frontright",
      [ ("visual", "frontright_fisheye_image");
        ("depth", "frontright_depth");
        ("depth_registered", "frontright_depth_in_visual_frame") ]);
    ("left",
      [ ("visual", "left_fisheye_image");
        ("depth", "left_depth");
        ("depth_registered", "left_depth_in_visual_frame") ]);
    ("right",
      [ ("visual", "right_fisheye_image");
        ("depth", "right_depth");
        ("depth_registered", "right_depth_in_visual_frame") ]);
    ("back",
      [ ("visual", "back_fisheye_image");
        ("depth", "back_depth");
        ("depth_registered", "back_depth_in_visual_frame") ]);
    ("hand",
      [ ("visual", "hand_color_image");
        ("depth", "hand_depth");
        ("depth_registered", "hand_depth_in_hand_color_frame") ]) ].

(** [IMAGE_SOURCES_BY_CAMERA[camera][image_type]] *)
Definition source_of (camera image_type : string) : option string :=
  row ← (list_to_map IMAGE_SOURCES_BY_CAMERA : gmap string _) !! camera;
  (list_to_map row : gmap string string) !! image_type.

Definition IMAGE_TYPES : gset string :=
  {[ "visual"; "depth"; "depth_registered" ]}.

(** The selector of the selective fetch; [image_types] may be [None]. *)
Module CameraSource.
Record t := {
  camera_name : string;
  image_types : option (list string)
}.
End CameraSource.

(** ** The world: logger sink and trace of remote calls *)

Inductive level := INFO | ERROR.

Record world := {
  log : list (level * string);
  rpc : list (list ImageRequest)
}.

Inductive exn :=
| UnsupportedPixelFormatRequestedError (msg : string)
| IndexError
| KeyError
| UnboundLocalError.

Inductive outcome (A : Type) :=
| Returns (a : A)
| Raises (e : exn).
Arguments Returns {A} a.
Arguments Raises {A} e.

Definition M (A : Type) : Type := world → outcome A * world.

Definition M_ret {A} (a : A) : M A := λ w, (Returns a, w).

Definition M_bind {A B} (k : A → M B) (m : M A) : M B :=
  λ w, match m w with
       | (Returns a, w') => k a w'
       | (Raises e, w') => (Raises e, w')
       end.

#[global] Instance M_mret : MRet M := @M_ret.
#[global] Instance M_mbind : MBind M := @M_bind.

Definition raise {A} (e : exn) : M A := λ w, (Raises e, w).

(** [try: body  except <class>: handler]; the handler is [None] on the
    exceptions the clause does not name. *)
Definition try_except {A} (body : M A) (handler : exn → option (M A)) : M A :=
  λ w, match body w with
       | (Returns a, w') => (Returns a, w')
       | (Raises e, w') =>
           match handler e with
           | Some h => h w'
           | None => (Raises e, w')
           end
       end.

Definition logger_info (msg : string) : M unit :=
  λ w, (Returns (), {| log := log w ++ [(INFO, msg)]; rpc := rpc w |}).

Definition logger_error (msg : string) : M unit :=
  λ w, (Returns (), {| log := log w ++ [(ERROR, msg)]; rpc := rpc w |}).

(** [l[i]] for a non-negative [i] *)
Definition getitem {A} (l : list A) (i : nat) : M A :=
  match l !! i with
  | Some a => mret a
  | None => raise IndexError
  end.

(** A statement that either falls through with the variables it bound or
    leaves the function with [return]. *)
Inductive flow (S R : Type) :=
| Continue (s : S)
| Return_ (r : R).
Arguments Continue {S R} s.
Arguments Return_ {S R} r.

(** ** The object and its collaborators *)

Section SpotImages.

(** The response payload is opaque to the module. *)
Variable ImageResponse : Type.

(** Python iterates the set [IMAGE_TYPES] in an order the language does not
    fix: some enumeration of its elements, each once. *)
Variable IMAGE_TYPES_iter : list string.
Hypothesis IMAGE_TYPES_iter_perm : IMAGE_TYPES_iter ≡ₚ elements IMAGE_TYPES.

Record Robot := { has_arm : bool }.

(** What [ImageClient.get_image] does with a batch: a response list, or
    the one exception the module handles. *)
Inductive reply :=
| Responses (image_responses : list ImageResponse)
| Unsupported (msg : string).

Definition ImageClient : Type := list ImageRequest → reply.

Record SpotImages := {
  _robot : Robot;
  _rgb_cameras : bool;
  _image_client : ImageClient;
  _camera_image_requests : list ImageRequest;
  _depth_image_requests : list ImageRequest;
  _depth_registered_image_requests : list ImageRequest;
  _image_requests_by_camera : gmap string (gmap string ImageRequest)
}.

(** [client.get_image(image_requests)]: the call is recorded in the world. *)
Definition get_image (client : ImageClient) (image_requests : list ImageRequest)
    : M (list ImageResponse) :=
  λ w, let w' := {| log := log w; rpc := rpc w ++ [image_requests] |} in
       match client image_requests with
       | Responses image_responses => (Returns image_responses, w')
       | Unsupported msg => (Raises (UnsupportedPixelFormatRequestedError msg), w')
       end.

(** *** Construction *)

(** The body of [for image_type in image_types] for one camera.  The row
    is iterated as items: [source] is the value under the key. *)
Fixpoint for_image_type (camera : string) (rgb_cameras : bool)
    (image_types : list (string * string)) (row : gmap string ImageRequest)
    : M (gmap string ImageRequest) :=
  match image_types with
  | [] => mret row
  | (image_type, source) :: image_types =>
      fmt ← (if String.prefix "depth" image_type then
               mret (FORMAT_RAW, PIXEL_FORMAT_DEPTH_U16)
             else if (camera =? "hand")%string || rgb_cameras then
               mret (FORMAT_JPEG, PIXEL_FORMAT_RGB_U8)
             else if negb (camera =? "hand")%string then
               logger_info ("Switching " +:+ camera +:+ ":" +:+ image_type
                            +:+ " to greyscale image format.");;
               mret (FORMAT_JPEG, PIXEL_FORMAT_GREYSCALE_U8)
             else
               (* no branch has bound [pixel_format] in this iteration;
                  never reached, see [elif_always_taken] *)
               raise UnboundLocalError);
      for_image_type camera rgb_cameras image_types
        (<[image_type := build_image_request source (Some fmt.1) (Some fmt.2)
                           (Some 75%Z)]> row)
  end.

(** The body of [for camera in IMAGE_SOURCES_BY_CAMERA]. *)
Fixpoint for_camera (robot : Robot) (rgb_cameras : bool)
    (cameras : list (string * list (string * string)))
    (requests_by_camera : gmap string (gmap string ImageRequest))
    : M (gmap string (gmap string ImageRequest)) :=
  match cameras with
  | [] => mret requests_by_camera
  | (camera, image_types) :: cameras =>
      if (camera =? "hand")%string && negb (has_arm robot) then
        for_camera robot rgb_cameras cameras requests_by_camera
      else
        row ← for_image_type camera rgb_cameras image_types ∅;
        for_camera robot rgb_cameras cameras (<[camera := row]> requests_by_camera)
  end.

(** The request the three catalog loops build for a body source. *)
Definition raw_request (camera_source : string) : ImageRequest :=
  build_image_request camera_source (Some FORMAT_RAW) None None.

(** [robot_clients["image_client"]] is the argument [image_client];
    [robot_params] is stored and never read, and the logger is the world. *)
Definition __init__ (robot : Robot) (image_client : ImageClient)
    (rgb_cameras : bool) : M SpotImages :=
  let camera_image_requests := raw_request <$> CAMERA_IMAGE_SOURCES in
  let depth_image_requests := raw_request <$> DEPTH_IMAGE_SOURCES in
  let depth_registered_image_requests :=
    raw_request <$> DEPTH_REGISTERED_IMAGE_SOURCES in
  let '(camera_image_requests, depth_image_requests,
        depth_registered_image_requests) :=
    if has_arm robot then
      (camera_image_requests ++
         [build_image_request "hand_color_image" (Some FORMAT_JPEG)
            (Some PIXEL_FORMAT_RGB_U8) (Some 50%Z)],
       depth_image_requests ++
         [build_image_request "hand_depth" None
            (Some PIXEL_FORMAT_DEPTH_U16) None],
       depth_registered_image_requests ++
         [build_image_request "hand_depth_in_hand_color_frame" None
            (Some PIXEL_FORMAT_DEPTH_U16) None])
    else
      (camera_image_requests, depth_image_requests,
       depth_registered_image_requests) in
  requests_by_camera ← for_camera robot rgb_cameras IMAGE_SOURCES_BY_CAMERA ∅;
  mret {| _robot := robot;
          _rgb_cameras := rgb_cameras;
          _image_client := image_client;
          _camera_image_requests := camera_image_requests;
          _depth_image_requests := depth_image_requests;
          _depth_registered_image_requests := depth_registered_image_requests;
          _image_requests_by_camera := requests_by_camera |}.

(** *** Single-image accessors *)

(** [except UnsupportedPixelFormatRequestedError as e: handler] *)
Definition except_unsupported {A} (handler : string → M A) (e : exn)
    : option (M A) :=
  match e with
  | UnsupportedPixelFormatRequestedError msg => Some (handler msg)
  | _ => None
  end.

Definition get_frontleft_rgb_image (self : SpotImages) : M (option ImageResponse) :=
  try_except
    (image_responses ← get_image (_image_client self)
       [build_image_request "frontleft_fisheye_image" (Some FORMAT_RAW) None None];
     image_response ← getitem image_responses 0;
     mret (Some image_response))
    (except_unsupported (λ e, logger_error e;; mret None)).

Definition get_frontright_rgb_image (self : SpotImages) : M (option ImageResponse) :=
  try_except
    (image_responses ← get_image (_image_client self)
       [build_image_request "frontright_fisheye_image" (Some FORMAT_RAW) None None];
     image_response ← getitem image_responses 0;
     mret (Some image_response))
    (except_unsupported (λ e, logger_error e;; mret None)).

Definition get_left_rgb_image (self : SpotImages) : M (option ImageResponse) :=
  try_except
    (image_responses ← get_image (_image_client self)
       [build_image_request "left_fisheye_image" (Some FORMAT_RAW) None None];
     image_response ← getitem image_responses 0;
     mret (Some image_response))
    (except_unsupported (λ e, logger_error e;; mret None)).

Definition get_right_rgb_image (self : SpotImages) : M (option ImageResponse) :=
  try_except
    (image_responses ← get_image (_image_client self)
       [build_image_request "right_fisheye_image" (Some FORMAT_RAW) None None];
     image_response ← getitem image_responses 0;
     mret (Some image_response))
    (except_unsupported (λ e, logger_error e;; mret None)).

Definition get_back_rgb_image (self : SpotImages) : M (option ImageResponse) :=
  try_except
    (image_responses ← get_image (_image_client self)
       [build_image_request "back_fisheye_image" (Some FORMAT_RAW) None None];
     image_response ← getitem image_responses 0;
     mret (Some image_response))
    (except_unsupported (λ e, logger_error e;; mret None)).

Definition get_hand_rgb_image (self : SpotImages) : M (option ImageResponse) :=
  if negb (has_arm (_robot self)) then mret None
  else
    try_except
      (image_responses ← get_image (_image_client self)
         [build_image_request "hand_color_image" None
            (Some PIXEL_FORMAT_RGB_U8) (Some 50%Z)];
       image_response ← getitem image_responses 0;
       mret (Some image_response))
      (except_unsupported (λ e, mret None)).

(** *** Bundled fetch *)

(** The two namedtuples. *)
Inductive Bundle :=
| ImageBundle (frontleft frontright left right back : ImageResponse)
| ImageWithHandBundle (frontleft frontright left right back hand : ImageResponse).

(** The namedtuple's [_fields]. *)
Definition _fields (b : Bundle) : list string :=
  match b with
  | ImageBundle _ _ _ _ _ =>
      ["frontleft"; "frontright"; "left"; "right"; "back"]
  | ImageWithHandBundle _ _ _ _ _ _ =>
      ["frontleft"; "frontright"; "left"; "right"; "back"; "hand"]
  end.

(** The namedtuple as the tuple it is. *)
Definition astuple (b : Bundle) : list ImageResponse :=
  match b with
  | ImageBundle frontleft frontright left_ right_ back =>
      [frontleft; frontright; left_; right_; back]
  | ImageWithHandBundle frontleft frontright left_ right_ back hand =>
      [frontleft; frontright; left_; right_; back; hand]
  end.

(** [getattr(b, name)]: the value of the slot of that name. *)
Definition getattr (b : Bundle) (name : string) : option ImageResponse :=
  (list_to_map (zip (_fields b) (astuple b)) : gmap string ImageResponse) !! name.

Definition get_images (self : SpotImages) (image_requests : list ImageRequest)
    : M (option Bundle) :=
  r ← try_except
        (image_responses ← get_image (_image_client self) image_requests;
         mret (Continue image_responses))
        (except_unsupported (λ e, logger_error e;; mret (Return_ None)));
  match r with
  | Return_ v => mret v
  | Continue image_responses =>
      if has_arm (_robot self) then
        frontleft ← getitem image_responses 0;
        frontright ← getitem image_responses 1;
        left_ ← getitem image_responses 2;
        right_ ← getitem image_responses 3;
        back ← getitem image_responses 4;
        hand ← getitem image_responses 5;
        mret (Some (ImageWithHandBundle frontleft frontright left_ right_ back hand))
      else
        frontleft ← getitem image_responses 0;
        frontright ← getitem image_responses 1;
        left_ ← getitem image_responses 2;
        right_ ← getitem image_responses 3;
        back ← getitem image_responses 4;
        mret (Some (ImageBundle frontleft frontright left_ right_ back))
  end.

Definition get_camera_images (self : SpotImages) : M (option Bundle) :=
  get_images self (_camera_image_requests self).

Definition get_depth_images (self : SpotImages) : M (option Bundle) :=
  get_images self (_depth_image_requests self).

Definition get_depth_registered_images (self : SpotImages) : M (option Bundle) :=
  get_images self (_depth_registered_image_requests self).

(** *** Selective fetch *)

Record ImageEntry := {
  camera_name : string;
  image_type : string;
  image_response : ImageResponse
}.

(** [d[k1][k2]] on the lookup table; a missing key raises [KeyError]. *)
Definition getitem2 (d : gmap string (gmap string ImageRequest))
    (k1 k2 : string) : M ImageRequest :=
  match d !! k1 with
  | None => raise KeyError
  | Some row =>
      match row !! k2 with
      | None => raise KeyError
      | Some request => mret request
      end
  end.

Definition except_KeyError {A} (handler : M A) (e : exn) : option (M A) :=
  match e with
  | KeyError => Some handler
  | _ => None
  end.

(** The body of [for image_type in image_types], for the selector of
    camera [name]; the state is [(image_requests, source_types)]. *)
Fixpoint for_requested_type (self : SpotImages) (name : string)
    (image_types : list string)
    (st : list ImageRequest * list (string * string))
    : M (flow (list ImageRequest * list (string * string))
              (option (list ImageEntry))) :=
  match image_types with
  | [] => mret (Continue st)
  | image_type :: image_types =>
      let '(image_requests, source_types) := st in
      r ← try_except
            (request ← getitem2 (_image_requests_by_camera self) name image_type;
             mret (Continue (image_requests ++ [request])))
            (except_KeyError
               (logger_error ("Unexpected camera name '" +:+ name
                              +:+ "' or image type '" +:+ image_type +:+ "'");;
                mret (Return_ None)));
      match r with
      | Return_ v => mret (Return_ v)
      | Continue image_requests =>
          for_requested_type self name image_types
            (image_requests, source_types ++ [(name, image_type)])
      end
  end.

(** The body of [for item in camera_sources]; the state is
    [(image_requests, source_types, cameras_specified)]. *)
Fixpoint for_item (self : SpotImages) (camera_sources : list CameraSource.t)
    (st : list ImageRequest * list (string * string) * gset string)
    : M (flow (list ImageRequest * list (string * string) * gset string)
              (option (list ImageEntry))) :=
  match camera_sources with
  | [] => mret (Continue st)
  | item :: camera_sources =>
      let '(image_requests, source_types, cameras_specified) := st in
      if decide (CameraSource.camera_name item ∈ cameras_specified) then
        logger_error ("Duplicated camera source for camera "
                      +:+ CameraSource.camera_name item);;
        mret (Return_ None)
      else
        let image_types :=
          match CameraSource.image_types item with
          | None => IMAGE_TYPES_iter
          | Some image_types => image_types
          end in
        r ← for_requested_type self (CameraSource.camera_name item) image_types
              (image_requests, source_types);
        match r with
        | Return_ v => mret (Return_ v)
        | Continue (image_requests, source_types) =>
            for_item self camera_sources
              (image_requests, source_types,
               cameras_specified ∪ {[CameraSource.camera_name item]})
        end
  end.

(** The body of [for i, (camera_name, image_type) in enumerate(source_types)],
    from index [i] on. *)
Fixpoint for_source_type (image_responses : list ImageResponse) (i : nat)
    (source_types : list (string * string)) (result : list ImageEntry)
    : M (list ImageEntry) :=
  match source_types with
  | [] => mret result
  | (camera_name, image_type) :: source_types =>
      image_response ← getitem image_responses i;
      for_source_type image_responses (S i) source_types
        (result ++ [{| camera_name := camera_name;
                       image_type := image_type;
                       image_response := image_response |}])
  end.

Definition get_images_by_cameras (self : SpotImages)
    (camera_sources : list CameraSource.t) : M (option (list ImageEntry)) :=
  built ← for_item self camera_sources ([], [], ∅);
  match built with
  | Return_ v => mret v
  | Continue (image_requests, source_types, _) =>
      r ← try_except
            (image_responses ← get_image (_image_client self) image_requests;
             mret (Continue image_responses))
            (except_unsupported
               (λ _, logger_error
                       ("UnsupportedPixelFormatRequestedError. "
                        +:+ "Likely pixel_format is set wrong for some image request");;
                     mret (Return_ None)));
      match r with
      | Return_ v => mret v
      | Continue image_responses =>
          result ← for_source_type image_responses 0 source_types [];
          mret (Some result)
      end
  end.

End SpotImages.

Arguments Responses {ImageResponse} image_responses.
Arguments Unsupported {ImageResponse} msg.
Arguments Build_SpotImages {ImageResponse}.
Arguments _robot {ImageResponse} s.
Arguments _rgb_cameras {ImageResponse} s.
Arguments _image_client {ImageResponse} s.
Arguments _camera_image_requests {ImageResponse} s.
Arguments _depth_image_requests {ImageResponse} s.
Arguments _depth_registered_image_requests {ImageResponse} s.
Arguments _image_requests_by_camera {ImageResponse} s.
Arguments get_image {ImageResponse} client image_requests.
Arguments __init__ {ImageResponse} robot image_client rgb_cameras.
Arguments get_frontleft_rgb_image {ImageResponse} self.
Arguments get_frontright_rgb_image {ImageResponse} self.
Arguments get_left_rgb_image {ImageResponse} self.
Arguments get_right_rgb_image {ImageResponse} self.
Arguments get_back_rgb_image {ImageResponse} self.
Arguments get_hand_rgb_image {ImageResponse} self.
Arguments ImageBundle {ImageResponse}.
Arguments ImageWithHandBundle {ImageResponse}.
Arguments _fields {ImageResponse} b.
Arguments astuple {ImageResponse} b.
Arguments getattr {ImageResponse} b name.
Arguments get_images {ImageResponse} self image_requests.
Arguments get_camera_images {ImageResponse} self.
Arguments get_depth_images {ImageResponse} self.
Arguments get_depth_registered_images {ImageResponse} self.
Arguments Build_ImageEntry {ImageResponse}.
Arguments camera_name {ImageResponse} i.
Arguments image_type {ImageResponse} i.
Arguments image_response {ImageResponse} i.
Arguments for_requested_type {ImageResponse} self name image_types st.
Arguments for_item {ImageResponse} IMAGE_TYPES_iter self camera_sources st.
Arguments for_source_type {ImageResponse} image_responses i source_types result.
Arguments get_images_by_cameras {ImageResponse} IMAGE_TYPES_iter self camera_sources.

(** ** Vocabulary of the statements *)

(** The slot names of the bundles, in slot order. *)
Definition body_slots : list string :=
  ["frontleft"; "frontright"; "left"; "right"; "back"].

Definition slots (arm : bool) : list string :=
  if arm then body_slots ++ ["hand"] else body_slots.

(** A request list is aligned with the slots for a modality when the request
    at each position asks for the source that [IMAGE_SOURCES_BY_CAMERA] gives
    the camera of the slot at that position. *)
Definition aligned (arm : bool) (modality : string)
    (requests : list ImageRequest) : Prop :=
  ∀ i slot, slots arm !! i = Some slot →
    image_source_name <$> requests !! i = source_of slot modality.

(** The entry of the lookup table, if any. *)
Definition table_lookup {ImageResponse} (self : SpotImages ImageResponse)
    (camera modality : string) : option ImageRequest :=
  row ← _image_requests_by_camera self !! camera; row !! modality.

(** The log of a construction: what [rgb_cameras] false adds. *)
Definition greyscale_log (rgb_cameras : bool) : list (level * string) :=
  if rgb_cameras then []
  else (λ camera, (INFO, "Switching " +:+ camera
                         +:+ ":visual to greyscale image format."))
         <$> body_slots.

(** The world after one more remote call, and after one more error. *)
Definition called (w : world) (image_requests : list ImageRequest) : world :=
  {| log := log w; rpc := rpc w ++ [image_requests] |}.

Definition errored (w : world) (msg : string) : world :=
  {| log := log w ++ [(ERROR, msg)]; rpc := rpc w |}.

(** The modalities a selector asks for, and the (camera, modality) pairs of
    a selector list, in the caller's order. *)
Definition requested_types (IMAGE_TYPES_iter : list string)
    (item : CameraSource.t) : list string :=
  default IMAGE_TYPES_iter (CameraSource.image_types item).

Definition requested_pairs (IMAGE_TYPES_iter : list string)
    (camera_sources : list CameraSource.t) : list (string * string) :=
  item ← camera_sources;
  pair (CameraSource.camera_name item) <$> requested_types IMAGE_TYPES_iter item.

(** What the validation of the selective fetch accepts: no camera twice (nor
    one of [seen]), every pair in the lookup table. *)
Definition accepted {ImageResponse} (IMAGE_TYPES_iter : list string)
    (self : SpotImages ImageResponse) (seen : gset string)
    (camera_sources : list CameraSource.t) : Prop :=
  NoDup (CameraSource.camera_name <$> camera_sources) ∧
  (∀ name, name ∈ CameraSource.camera_name <$> camera_sources → name ∉ seen) ∧
  (∀ pair, pair ∈ requested_pairs IMAGE_TYPES_iter camera_sources →
     is_Some (table_lookup self pair.1 pair.2)).

(** The pairs of a selector list whose selectors all list their modalities,
    and the requests the lookup table holds for a list of pairs. *)
Definition explicit_pairs (camera_sources : list CameraSource.t)
    : list (string * string) :=
  item ← camera_sources;
  pair (CameraSource.camera_name item)
    <$> default [] (CameraSource.image_types item).

Definition resolved {ImageResponse} (self : SpotImages ImageResponse)
    (pairs : list (string * string)) : list ImageRequest :=
  omap (λ pair, table_lookup self pair.1 pair.2) pairs.

(** The selective fetch serves a selector list (of selectors that list
    their modalities) in the caller's order: it sends one batch, holding for each pair, in order, the request the lookup
    table has for it; the client answers with a response list; and the fetch
    returns one entry per pair, in order, tagged with the pair and holding
    the response at its own position. *)
Definition serves_in_caller_order {ImageResponse}
    (IMAGE_TYPES_iter : list string) (self : SpotImages ImageResponse)
    (camera_sources : list CameraSource.t) (w : world) : Prop :=
  let pairs := explicit_pairs camera_sources in
  ∃ image_responses entries,
    Forall2 (λ pair request, table_lookup self pair.1 pair.2 = Some request)
      pairs (resolved self pairs) ∧
    _image_client self (resolved self pairs) = Responses image_responses ∧
    get_images_by_cameras IMAGE_TYPES_iter self camera_sources w
      = (Returns (Some entries), called w (resolved self pairs)) ∧
    (λ entry, (camera_name entry, image_type entry)) <$> entries = pairs ∧
    (∀ i entry, entries !! i = Some entry →
       image_responses !! i = Some (image_response entry)).

(** The request the hand accessor builds. *)
Definition hand_rgb_request : ImageRequest :=
  build_image_request "hand_color_image" None (Some PIXEL_FORMAT_RGB_U8)
    (Some 50%Z).

(** The empty world and two clients: one answers each request with the name
    of its source, the other refuses every batch. *)
Definition w0 : world := {| log := []; rpc := [] |}.

Definition echo_client : ImageClient string :=
  λ image_requests, Responses (image_source_name <$> image_requests).

Definition refusing_client : ImageClient string :=
  λ _, Unsupported "unsupported pixel format".

(** Selector lists: two cameras with their modalities listed, one camera
    named twice, and the hand camera with its modalities left out. *)
Definition two_cameras : list CameraSource.t :=
  [ {| CameraSource.camera_name := "frontleft";
       CameraSource.image_types := Some ["visual"] |};
    {| CameraSource.camera_name := "back";
       CameraSource.image_types := Some ["depth"; "depth_registered"] |} ].

Definition same_camera_twice : list CameraSource.t :=
  [ {| CameraSource.camera_name := "frontleft";
       CameraSource.image_types := Some ["visual"] |};
    {| CameraSource.camera_name := "frontleft";
       CameraSource.image_types := Some ["depth"] |} ].

Definition hand_camera_only : list CameraSource.t :=
  [ {| CameraSource.camera_name := "hand";
       CameraSource.image_types := None |} ].

(** The object a construction returns. *)
Definition constructed {ImageResponse} (robot : Robot)
    (image_client : ImageClient ImageResponse) (rgb_cameras : bool)
    : SpotImages ImageResponse :=
  match (__init__ robot image_client rgb_cameras w0).1 with
  | Returns self => self
  | Raises _ => Build_SpotImages robot rgb_cameras image_client [] [] [] ∅
  end.

(** Objects for the examples: a robot without an arm and one with an arm,
    on the client that echoes, and one with an arm on the client that
    refuses. *)
Definition spot : SpotImages string :=
  constructed {| has_arm := false |} echo_client true.

Definition spot_with_arm : SpotImages string :=
  constructed {| has_arm := true |} echo_client true.

Definition refused_spot_with_arm : SpotImages string :=
  constructed {| has_arm := true |} refusing_client true.

#[global] Instance Format_eq_dec : EqDecision Format.
Proof. solve_decision. Defined.
#[global] Instance PixelFormat_eq_dec : EqDecision PixelFormat.
Proof. solve_decision. Defined.
#[global] Instance ImageRequest_eq_dec : EqDecision ImageRequest.
Proof. solve_decision. Defined.

(** The accessors that fetch one image, and the bundled fetches, each with
    the catalog list it sends. *)
Definition single_image_accessors {ImageResponse}
    : list (SpotImages ImageResponse → M (option ImageResponse)) :=
  [ get_frontleft_rgb_image; get_frontright_rgb_image; get_left_rgb_image;
    get_right_rgb_image; get_back_rgb_image; get_hand_rgb_image ].

Definition bundled_fetches {ImageResponse}
    : list ((SpotImages ImageResponse → M (option (Bundle ImageResponse)))
            * (SpotImages ImageResponse → list ImageRequest)) :=
  [ (get_camera_images, _camera_image_requests);
    (get_depth_images, _depth_image_requests);
    (get_depth_registered_images, _depth_registered_image_requests) ].

(** The five body accessors in slot order, each with the source it names. *)
Definition body_accessors {ImageResponse}
    : list (string * (SpotImages ImageResponse → M (option ImageResponse))) :=
  [ ("frontleft_fisheye_image", get_frontleft_rgb_image);
    ("frontright_fisheye_image", get_frontright_rgb_image);
    ("left_fisheye_image", get_left_rgb_image);
    ("right_fisheye_image", get_right_rgb_image);
    ("back_fisheye_image", get_back_rgb_image) ].

(** A method is frugal when, from any world, it makes at most one remote
    call and logs at most one record, an error, and only together with the
    absent result; what the world held before stays in front. *)
Definition frugal {A} (m : M (option A)) : Prop :=
  ∀ w, ∃ logs calls,
    (m w).2 = {| log := log w ++ logs; rpc := rpc w ++ calls |} ∧
    (length calls ≤ 1)%nat ∧
    (length logs ≤ 1)%nat ∧
    Forall (λ record, record.1 = ERROR) logs ∧
    (logs ≠ [] → (m w).1 = Returns None).

(** Two more clients: one answers every batch with no response at all, the
    other with one response too many. *)
Definition silent_client : ImageClient string := λ _, Responses [].

Definition generous_client : ImageClient string :=
  λ image_requests,
    Responses ((image_source_name <$> image_requests) ++ ["spare"]).

Definition silent_spot : SpotImages string :=
  constructed {| has_arm := false |} silent_client true.

Definition generous_spot : SpotImages string :=
  constructed {| has_arm := false |} generous_client true.

(** A selector list whose second selector lists a modality that does not
    exist, after one that does. *)
Definition unknown_modality : list CameraSource.t :=
  [ {| CameraSource.camera_name := "back";
       CameraSource.image_types := Some ["depth"] |};
    {| CameraSource.camera_name := "frontleft";
       CameraSource.image_types := Some ["visual"; "thermal"; "depth"] |} ].

(** Show a run frugal by naming what it logged and what it called. *)
Ltac frugal_with logs calls :=
  exists logs, calls; split_and!;
  [ cbn; by rewrite ?app_nil_r
  | cbn; lia
  | cbn; lia
  | repeat constructor
  | first [ done | intros _; reflexivity ] ].

Ltac by_evaluation := apply (bool_decide_unpack _); vm_compute; exact I.

Ltac refuted_by_evaluation :=
  let H := fresh in
  intros H; exfalso; revert H;
  apply (bool_decide_eq_false_1 _); vm_compute; reflexivity.

(** Run a method: unfold the operations of the monad and evaluate. *)
Ltac run :=
  unfold mbind, mret, M_mbind, M_mret, M_bind, M_ret, try_except, get_image,
    getitem, raise, logger_error, called, errored; cbn.

(** * Construction *)

Section Construction.
Context {ImageResponse : Type}.
Implicit Types (robot : Robot) (client : ImageClient ImageResponse) (w : world).
Implicit Types (self : SpotImages ImageResponse).

(** Construction cannot fail, and its only effect is the greyscale log. *)
Lemma init_constructed robot client rgb w :
  __init__ robot client rgb w =
    (Returns (constructed robot client rgb),
     {| log := log w ++ greyscale_log rgb; rpc := rpc w |}).
Proof.
  destruct w as [l c].
  destruct robot as [[]], rgb; cbn;
    unfold mbind, mret, M_mbind, M_mret, M_bind, M_ret, logger_info; cbn;
    rewrite <- ?app_assoc, ?app_nil_r; reflexivity.
Qed.

Lemma constructed_robot robot client rgb :
  _robot (constructed robot client rgb) = robot.
Proof. destruct robot as [[]], rgb; reflexivity. Qed.

Lemma constructed_client robot client rgb :
  _image_client (constructed robot client rgb) = client.
Proof. destruct robot as [[]], rgb; reflexivity. Qed.

(** The test the [else] branch of the constructor never reaches: once
    [camera == "hand" or rgb_cameras] has failed, the [elif] holds. *)
Lemma elif_always_taken (camera : string) (rgb : bool) :
  (camera =? "hand")%string || rgb = false →
  negb (camera =? "hand")%string = true.
Proof. destruct (camera =? "hand")%string, rgb; naive_solver. Qed.

(** A property of every entry of the lookup table, by enumeration. *)
Lemma table_lookup_Forall (P : string → string → ImageRequest → Prop)
    `{!∀ c m r, Decision (P c m r)} self :
  bool_decide (map_Forall (λ c row, map_Forall (P c) row)
                 (_image_requests_by_camera self)) →
  ∀ c m r, table_lookup self c m = Some r → P c m r.
Proof.
  intros Hall%bool_decide_unpack c m r Hl. unfold table_lookup in Hl.
  destruct (_image_requests_by_camera self !! c) as [row|] eqn:Hrow;
    [|discriminate].
  exact (Hall c row Hrow m r Hl).
Qed.

(** C6: without an arm each of the three catalog lists has five
    descriptors and the lookup table has no row for the hand camera; with
    an arm each has six and the row is there.  The descriptors of the hand
    camera are in the catalog exactly when the robot has an arm. *)
Theorem catalog_follows_arm_flag robot client rgb w :
  ∃ self w',
    __init__ robot client rgb w = (Returns self, w') ∧
    length (_camera_image_requests self) = (if has_arm robot then 6 else 5) ∧
    length (_depth_image_requests self) = (if has_arm robot then 6 else 5) ∧
    length (_depth_registered_image_requests self)
      = (if has_arm robot then 6 else 5) ∧
    (is_Some (_image_requests_by_camera self !! "hand") ↔ has_arm robot = true) ∧
    ("hand_color_image" ∈ image_source_name <$> _camera_image_requests self
       ↔ has_arm robot = true) ∧
    ("hand_depth" ∈ image_source_name <$> _depth_image_requests self
       ↔ has_arm robot = true) ∧
    ("hand_depth_in_hand_color_frame"
       ∈ image_source_name <$> _depth_registered_image_requests self
       ↔ has_arm robot = true).
Proof.
  eexists _, _. split; [apply init_constructed|].
  destruct robot as [[]], rgb; cbn [has_arm].
  all: split_and!; try (vm_compute; reflexivity).
  all: split; try (intros _; by_evaluation); try discriminate.
  all: refuted_by_evaluation.
Qed.

Lemma elem_of_IMAGE_TYPES (m : string) :
  m ∈ IMAGE_TYPES ↔ m = "visual" ∨ m = "depth" ∨ m = "depth_registered".
Proof.
  unfold IMAGE_TYPES. rewrite !elem_of_union, !elem_of_singleton. tauto.
Qed.

(** C5: in the lookup table a visual request is full colour for the hand
    camera or when the colour preference is on, and greyscale otherwise;
    every other request is a depth or depth-registered one and asks for
    16-bit depth whatever the preference; and the construction logs one
    informational event per body camera put in greyscale, naming it. *)
Theorem lookup_table_pixel_formats robot client rgb w :
  ∃ self w',
    __init__ robot client rgb w = (Returns self, w') ∧
    (∀ camera modality request,
       table_lookup self camera modality = Some request →
       (modality = "visual" ∧
        pixel_format request =
          Some (if (camera =? "hand")%string || rgb
                then PIXEL_FORMAT_RGB_U8 else PIXEL_FORMAT_GREYSCALE_U8)) ∨
       ((modality = "depth" ∨ modality = "depth_registered") ∧
        pixel_format request = Some PIXEL_FORMAT_DEPTH_U16)) ∧
    (∀ camera modality,
       is_Some (table_lookup self camera modality) ↔
       camera ∈ slots (has_arm robot) ∧ modality ∈ IMAGE_TYPES) ∧
    log w' = log w ++
      (if rgb then []
       else (λ camera, (INFO, "Switching " +:+ camera
                              +:+ ":visual to greyscale image format."))
              <$> ["frontleft"; "frontright"; "left"; "right"; "back"]) ∧
    rpc w' = rpc w.
Proof.
  eexists _, _. split; [apply init_constructed|].
  split_and!; [| |destruct rgb; reflexivity|reflexivity].
  - apply (table_lookup_Forall (λ camera modality request,
      (modality = "visual" ∧
       pixel_format request =
         Some (if (camera =? "hand")%string || rgb
               then PIXEL_FORMAT_RGB_U8 else PIXEL_FORMAT_GREYSCALE_U8)) ∨
      ((modality = "depth" ∨ modality = "depth_registered") ∧
       pixel_format request = Some PIXEL_FORMAT_DEPTH_U16))).
    destruct robot as [[]], rgb; vm_compute; exact I.
  - intros camera modality. split.
    + intros [request Hl]. revert camera modality request Hl.
      apply (table_lookup_Forall
               (λ c m _, c ∈ slots (has_arm robot) ∧ m ∈ IMAGE_TYPES)).
      destruct robot as [[]], rgb; vm_compute; exact I.
    + intros [Hc Hm%elem_of_IMAGE_TYPES].
      destruct robot as [[]], rgb; cbn in Hc.
      all: repeat (apply elem_of_cons in Hc as [->|Hc]);
        [..|by apply elem_of_nil in Hc].
      all: destruct Hm as [->|[->| ->]]; vm_compute; eauto.
Qed.

(** The accessors and the bundled fetches read the robot, the client and
    the catalog lists of the object, nothing else. *)
Lemma accessor_frame self1 self2 accessor w :
  _robot self1 = _robot self2 →
  _image_client self1 = _image_client self2 →
  accessor ∈ single_image_accessors →
  accessor self1 w = accessor self2 w.
Proof.
  intros Hr Hc Hin. unfold single_image_accessors in Hin.
  repeat (apply elem_of_cons in Hin as [->|Hin]);
    [..|by apply elem_of_nil in Hin].
  all: unfold get_frontleft_rgb_image, get_frontright_rgb_image,
         get_left_rgb_image, get_right_rgb_image, get_back_rgb_image,
         get_hand_rgb_image; by rewrite ?Hr, ?Hc.
Qed.

(** C10: two constructions that differ only in the colour preference give
    the same three catalog lists, and every single-image accessor (and every
    bundled fetch) run on the one object does exactly what it does on the
    other: same result, same request sent, same log. *)
Theorem rgb_preference_frame robot client rgb1 rgb2 w :
  ∃ self1 w1 self2 w2,
    __init__ robot client rgb1 w = (Returns self1, w1) ∧
    __init__ robot client rgb2 w = (Returns self2, w2) ∧
    _camera_image_requests self1 = _camera_image_requests self2 ∧
    _depth_image_requests self1 = _depth_image_requests self2 ∧
    _depth_registered_image_requests self1
      = _depth_registered_image_requests self2 ∧
    (∀ accessor w', accessor ∈ single_image_accessors →
       accessor self1 w' = accessor self2 w') ∧
    (∀ fetch w', fetch ∈ bundled_fetches →
       fetch.1 self1 w' = fetch.1 self2 w').
Proof.
  eexists _, _, _, _. split; [apply init_constructed|].
  split; [apply init_constructed|].
  assert (Hlists :
    _camera_image_requests (constructed robot client rgb1)
      = _camera_image_requests (constructed robot client rgb2) ∧
    _depth_image_requests (constructed robot client rgb1)
      = _depth_image_requests (constructed robot client rgb2) ∧
    _depth_registered_image_requests (constructed robot client rgb1)
      = _depth_registered_image_requests (constructed robot client rgb2))
    by (destruct robot as [[]], rgb1, rgb2; split_and!; reflexivity).
  destruct Hlists as (Hv & Hd & Hdr). split_and!; try done.
  - intros accessor w' Hin. apply accessor_frame; [| |done].
    + by rewrite !constructed_robot.
    + by rewrite !constructed_client.
  - intros fetch w' Hin. unfold bundled_fetches in Hin.
    repeat (apply elem_of_cons in Hin as [->|Hin]);
      [..|by apply elem_of_nil in Hin].
    all: cbn [fst]; unfold get_camera_images, get_depth_images,
           get_depth_registered_images, get_images.
    all: by rewrite ?Hv, ?Hd, ?Hdr, !constructed_robot, !constructed_client.
Qed.

(** The visual and the depth catalog lists follow the slot order. *)
Lemma visual_and_depth_requests_aligned robot client rgb w :
  ∃ self w',
    __init__ robot client rgb w = (Returns self, w') ∧
    aligned (has_arm robot) "visual" (_camera_image_requests self) ∧
    aligned (has_arm robot) "depth" (_depth_image_requests self).
Proof.
  eexists _, _. split; [apply init_constructed|].
  destruct robot as [[]], rgb; split; intros i slot Hi.
  all: do 6 (destruct i as [|i];
             [by (simplify_eq/=) || (apply lookup_lt_Some in Hi; cbn in Hi; lia)|]).
  all: apply lookup_lt_Some in Hi; cbn in Hi; lia.
Qed.

(** C1, on the code: the depth-registered catalog list does not follow the
    slot order.  Its third descriptor, the one whose response the bundled
    fetch files under slot [left], asks for the source of camera [right]
    (and the fourth, filed under [right], for the source of [left]). *)
Theorem depth_registered_requests_misaligned robot client rgb w :
  ∃ self w',
    __init__ robot client rgb w = (Returns self, w') ∧
    slots (has_arm robot) !! 2 = Some "left" ∧
    slots (has_arm robot) !! 3 = Some "right" ∧
    image_source_name <$> _depth_registered_image_requests self !! 2
      = source_of "right" "depth_registered" ∧
    image_source_name <$> _depth_registered_image_requests self !! 3
      = source_of "left" "depth_registered" ∧
    source_of "right" "depth_registered" ≠ source_of "left" "depth_registered" ∧
    ¬ aligned (has_arm robot) "depth_registered"
        (_depth_registered_image_requests self).
Proof.
  eexists _, _. split; [apply init_constructed|].
  destruct robot as [[]], rgb; split_and!; try done.
  all: intros Hal; by specialize (Hal 2 "left" eq_refl).
Qed.

End Construction.

(** The same on a run: the client answers each request with the name of its
    source, and slot [left] of the depth-registered bundle comes back holding
    the image of the right camera. *)
Example depth_registered_left_slot_holds_right_camera :
  ∃ b,
    (get_depth_registered_images
       (constructed {| has_arm := false |} echo_client true) w0).1
      = Returns (Some b) ∧
    getattr b "left" = Some "right_depth_in_visual_frame" ∧
    getattr b "right" = Some "left_depth_in_visual_frame".
Proof. eexists. split_and!; vm_compute; reflexivity. Qed.

(** * Dispatch *)

Section Dispatch.
Context {ImageResponse : Type}.
Implicit Types (self : SpotImages ImageResponse) (w : world).
Implicit Types (rs : list ImageResponse).

(** C8: without an arm the hand accessor returns the absent result at once,
    the world untouched (no remote call); with an arm, when the client answers
    with a response list, the accessor returns the first response of it. *)
Theorem hand_accessor_checks_arm_first self w :
  (has_arm (_robot self) = false →
     get_hand_rgb_image self w = (Returns None, w)) ∧
  (∀ rs r,
     has_arm (_robot self) = true →
     _image_client self [hand_rgb_request] = Responses rs →
     rs !! 0 = Some r →
     get_hand_rgb_image self w
       = (Returns (Some r), called w [hand_rgb_request])).
Proof.
  split.
  - intros Harm. unfold get_hand_rgb_image. by rewrite Harm.
  - intros rs r Harm Hcl Hr. unfold get_hand_rgb_image, hand_rgb_request in *.
    rewrite Harm. run. rewrite Hcl, Hr. reflexivity.
Qed.

(** C2, on the code: when the client refuses the batch of the hand accessor,
    the accessor returns the absent result and the log is what it was: the
    condition is not logged. *)
Theorem hand_accessor_drops_unsupported_unlogged self w msg :
  has_arm (_robot self) = true →
  _image_client self [hand_rgb_request] = Unsupported msg →
  get_hand_rgb_image self w = (Returns None, called w [hand_rgb_request]) ∧
  log (get_hand_rgb_image self w).2 = log w.
Proof.
  intros Harm Hcl. unfold get_hand_rgb_image, hand_rgb_request in *.
  rewrite Harm. run. rewrite Hcl. done.
Qed.

(** With an arm and an empty response list the hand accessor does not
    return: indexing raises. *)
Lemma hand_accessor_on_empty_response self w :
  has_arm (_robot self) = true →
  _image_client self [hand_rgb_request] = Responses [] →
  get_hand_rgb_image self w = (Raises IndexError, called w [hand_rgb_request]).
Proof.
  intros Harm Hcl. unfold get_hand_rgb_image, hand_rgb_request in *.
  rewrite Harm. run. by rewrite Hcl.
Qed.

(** The other accessors do log it: the five body accessors and the bundled
    fetch log the error the client raised and return the absent result. *)
Lemma body_accessors_log_unsupported self w msg (source : string)
    (accessor : SpotImages ImageResponse → M (option ImageResponse)) :
  (source, accessor) ∈
    [ ("frontleft_fisheye_image", get_frontleft_rgb_image);
      ("frontright_fisheye_image", get_frontright_rgb_image);
      ("left_fisheye_image", get_left_rgb_image);
      ("right_fisheye_image", get_right_rgb_image);
      ("back_fisheye_image", get_back_rgb_image) ] →
  _image_client self [raw_request source] = Unsupported msg →
  accessor self w = (Returns None, errored (called w [raw_request source]) msg).
Proof.
  intros Hin.
  repeat (apply elem_of_cons in Hin as [[= -> ->]|Hin]);
    [..|by apply elem_of_nil in Hin].
  all: intros Hcl; unfold raw_request in *.
  all: unfold get_frontleft_rgb_image, get_frontright_rgb_image,
         get_left_rgb_image, get_right_rgb_image, get_back_rgb_image.
  all: run; by rewrite Hcl.
Qed.

Lemma get_images_logs_unsupported self image_requests w msg :
  _image_client self image_requests = Unsupported msg →
  get_images self image_requests w
    = (Returns None, errored (called w image_requests) msg).
Proof. intros Hcl. unfold get_images. run. by rewrite Hcl. Qed.

(** The bundled fetch on any request list: with as many responses as the
    bundle has slots, the bundle is the response list. *)
Lemma get_images_returns self image_requests rs w :
  _image_client self image_requests = Responses rs →
  length rs = length (slots (has_arm (_robot self))) →
  ∃ b, get_images self image_requests w
         = (Returns (Some b), called w image_requests) ∧
       _fields b = slots (has_arm (_robot self)) ∧
       astuple b = rs.
Proof.
  intros Hcl Hlen. unfold get_images. run. rewrite Hcl.
  destruct (has_arm (_robot self)); cbn in Hlen.
  - do 6 (destruct rs as [|? rs]; [discriminate|]).
    destruct rs; [|discriminate]. by eexists.
  - do 5 (destruct rs as [|? rs]; [discriminate|]).
    destruct rs; [|discriminate]. by eexists.
Qed.

(** C7: a bundled fetch whose batch the client answers with as many
    responses as it has requests returns a bundle whose slots are the
    responses in order: [frontleft] the first, [frontright] the second,
    [left] the third, [right] the fourth, [back] the fifth and, with an arm,
    [hand] the sixth; six slots with an arm, five without. *)
Theorem bundled_fetch_fills_slots_in_order
    robot client rgb w1 self w2 fetch rs w :
  __init__ robot client rgb w1 = (Returns self, w2) →
  fetch ∈ bundled_fetches →
  client (fetch.2 self) = Responses rs →
  length rs = length (fetch.2 self) →
  ∃ b,
    fetch.1 self w = (Returns (Some b), called w (fetch.2 self)) ∧
    _fields b =
      (if has_arm robot
       then ["frontleft"; "frontright"; "left"; "right"; "back"; "hand"]
       else ["frontleft"; "frontright"; "left"; "right"; "back"]) ∧
    astuple b = rs ∧
    getattr b "frontleft" = rs !! 0 ∧
    getattr b "frontright" = rs !! 1 ∧
    getattr b "left" = rs !! 2 ∧
    getattr b "right" = rs !! 3 ∧
    getattr b "back" = rs !! 4 ∧
    getattr b "hand" = (if has_arm robot then rs !! 5 else None).
Proof.
  rewrite init_constructed. intros [= <- _] Hin Hcl Hlen.
  assert (Hslots : length (fetch.2 (constructed robot client rgb))
                   = length (slots (has_arm robot))).
  { unfold bundled_fetches in Hin.
    repeat (apply elem_of_cons in Hin as [->|Hin]);
      [..|by apply elem_of_nil in Hin].
    all: by destruct robot as [[]], rgb. }
  destruct (get_images_returns (constructed robot client rgb)
              (fetch.2 (constructed robot client rgb)) rs w) as (b & Hb & Hf & Ht).
  { by rewrite constructed_client. }
  { by rewrite constructed_robot, <- Hslots. }
  exists b. split.
  { rewrite <- Hb. unfold bundled_fetches in Hin.
    repeat (apply elem_of_cons in Hin as [->|Hin]);
      [..|by apply elem_of_nil in Hin]; reflexivity. }
  rewrite constructed_robot in Hf. subst rs.
  destruct robot as [[]], b; try discriminate; cbn in Hf |- *.
  all: split_and!; reflexivity.
Qed.

(** *** The selective fetch *)

Variable IMAGE_TYPES_iter : list string.
Hypothesis IMAGE_TYPES_iter_perm : IMAGE_TYPES_iter ≡ₚ elements IMAGE_TYPES.

Lemma bind_run {A B} (m : M A) (k : A → M B) w :
  (m ≫= k) w = match m w with
               | (Returns a, w') => k a w'
               | (Raises e, w') => (Raises e, w')
               end.
Proof. reflexivity. Qed.

Lemma for_item_cons self item camera_sources requests pairs seen :
  for_item IMAGE_TYPES_iter self (item :: camera_sources)
    (requests, pairs, seen) =
  if decide (CameraSource.camera_name item ∈ seen) then
    logger_error ("Duplicated camera source for camera "
                  +:+ CameraSource.camera_name item);;
    mret (Return_ None)
  else
    r ← for_requested_type self (CameraSource.camera_name item)
          (requested_types IMAGE_TYPES_iter item) (requests, pairs);
    match r with
    | Return_ v => mret (Return_ v)
    | Continue (image_requests, source_types) =>
        for_item IMAGE_TYPES_iter self camera_sources
          (image_requests, source_types,
           seen ∪ {[CameraSource.camera_name item]})
    end.
Proof.
  cbn [for_item]. unfold requested_types.
  by destruct (CameraSource.image_types item).
Qed.

Lemma getitem2_run self name modality w :
  getitem2 (_image_requests_by_camera self) name modality w =
    match table_lookup self name modality with
    | Some request => (Returns request, w)
    | None => (Raises KeyError, w)
    end.
Proof.
  unfold getitem2, table_lookup.
  destruct (_image_requests_by_camera self !! name) as [row|]; [|done].
  cbn. by destruct (row !! modality).
Qed.

(** The inner loop: either every modality of the selector is in the table
    and the loop falls through with the requests and pairs appended, the
    world untouched; or one is not, and the loop has logged one error and
    left the function with the absent result. *)
Lemma for_requested_type_spec self name modalities requests pairs w :
  (∃ new,
     Forall2 (λ modality request,
                table_lookup self name modality = Some request) modalities new ∧
     for_requested_type self name modalities (requests, pairs) w
       = (Returns (Continue (requests ++ new,
                             pairs ++ (pair name <$> modalities))), w))
  ∨ ((∃ modality, modality ∈ modalities ∧
                  table_lookup self name modality = None) ∧
     ∃ msg, for_requested_type self name modalities (requests, pairs) w
              = (Returns (Return_ None), errored w msg)).
Proof.
  revert requests pairs.
  induction modalities as [|modality modalities IH]; intros requests pairs.
  - left. exists []. split; [constructor|]. cbn. by rewrite !app_nil_r.
  - cbn [for_requested_type]. run. rewrite getitem2_run.
    destruct (table_lookup self name modality) as [request|] eqn:Hl.
    + destruct (IH (requests ++ [request]) (pairs ++ [(name, modality)]))
        as [(new & Hnew & Hrun)|((m & Hm & Hnone) & msg & Hrun)].
      * left. exists (request :: new). split; [by constructor|].
        cbn. rewrite Hrun. by rewrite <- !app_assoc.
      * right. split; [exists m; split; [by right|done]|].
        exists msg. cbn. by rewrite Hrun.
    + right. split; [exists modality; split; [by left|done]|].
      cbn. by eexists.
Qed.

Lemma requested_pairs_cons item (camera_sources : list CameraSource.t) :
  requested_pairs IMAGE_TYPES_iter (item :: camera_sources) =
    (pair (CameraSource.camera_name item)
       <$> requested_types IMAGE_TYPES_iter item)
    ++ requested_pairs IMAGE_TYPES_iter camera_sources.
Proof. reflexivity. Qed.

Lemma accepted_cons self seen item (camera_sources : list CameraSource.t) :
  accepted IMAGE_TYPES_iter self seen (item :: camera_sources) ↔
    (CameraSource.camera_name item ∉ seen) ∧
    (∀ modality, modality ∈ requested_types IMAGE_TYPES_iter item →
       is_Some (table_lookup self (CameraSource.camera_name item) modality)) ∧
    accepted IMAGE_TYPES_iter self
      (seen ∪ {[CameraSource.camera_name item]}) camera_sources.
Proof.
  unfold accepted. rewrite requested_pairs_cons, fmap_cons, NoDup_cons.
  setoid_rewrite elem_of_cons. setoid_rewrite elem_of_app.
  setoid_rewrite elem_of_union. setoid_rewrite elem_of_singleton.
  setoid_rewrite list_elem_of_fmap.
  split.
  - intros ((Hfresh & Hnd) & Hseen & Hpairs). split_and!; [naive_solver| |done| |].
    + intros modality Hm. apply (Hpairs (_, modality)). left. by eexists.
    + intros name Hname [Hs| ->]; [|by apply Hfresh].
      apply (Hseen name); [by right|done].
    + intros p Hp. apply Hpairs. by right.
  - intros (Hfresh & Hrow & Hnd & Hseen & Hpairs). split_and!; [|done| |].
    + intros Hin. apply (Hseen _ Hin). by right.
    + intros name [->|Hname]; [done|].
      intros Hs. apply (Hseen name Hname). by left.
    + intros p [(modality & -> & Hm)|Hp]; [by apply Hrow|by apply Hpairs].
Qed.

(** The outer loop: either the selector list is accepted and the loop falls
    through with the requests of its pairs, in order, the world untouched; or
    it is not, and the loop has logged one error and left the function with
    the absent result. *)
Lemma for_item_spec self camera_sources requests pairs seen w :
  (accepted IMAGE_TYPES_iter self seen camera_sources ∧
   ∃ new cameras_specified,
     Forall2 (λ pair request, table_lookup self pair.1 pair.2 = Some request)
       (requested_pairs IMAGE_TYPES_iter camera_sources) new ∧
     for_item IMAGE_TYPES_iter self camera_sources (requests, pairs, seen) w
       = (Returns (Continue
            (requests ++ new,
             pairs ++ requested_pairs IMAGE_TYPES_iter camera_sources,
             cameras_specified)), w))
  ∨ (¬ accepted IMAGE_TYPES_iter self seen camera_sources ∧
     ∃ msg,
       for_item IMAGE_TYPES_iter self camera_sources (requests, pairs, seen) w
         = (Returns (Return_ None), errored w msg)).
Proof.
  revert requests pairs seen.
  induction camera_sources as [|item camera_sources IH];
    intros requests pairs seen.
  - left. split.
    + split_and!; [constructor|by intros ? ?%elem_of_nil|by intros ? ?%elem_of_nil].
    + exists [], seen. split; [constructor|]. cbn. by rewrite !app_nil_r.
  - rewrite accepted_cons, for_item_cons.
    destruct (decide (CameraSource.camera_name item ∈ seen)) as [Hdup|Hfresh].
    { right. split; [by intros [? _]|]. run. by eexists. }
    rewrite bind_run.
    destruct (for_requested_type_spec self (CameraSource.camera_name item)
                (requested_types IMAGE_TYPES_iter item) requests pairs w)
      as [(new1 & Hnew1 & Hrun1)|((m & Hm & Hnone) & msg & Hrun1)];
      rewrite Hrun1.
    2: { right. split; [|by exists msg].
         intros (_ & Hrow & _). specialize (Hrow m Hm).
         rewrite Hnone in Hrow. by destruct Hrow. }
    destruct (IH (requests ++ new1)
                (pairs ++ (pair (CameraSource.camera_name item)
                             <$> requested_types IMAGE_TYPES_iter item))
                (seen ∪ {[CameraSource.camera_name item]}))
      as [(Hacc & new2 & cs & Hnew2 & Hrun2)|(Hrej & msg & Hrun2)];
      rewrite Hrun2.
    + left. split.
      * split_and!; [done| |done].
        intros modality [i Hi]%list_elem_of_lookup.
        destruct (Forall2_lookup_l _ _ _ _ _ Hnew1 Hi) as (request & _ & ->).
        by eexists.
      * exists (new1 ++ new2), cs. rewrite requested_pairs_cons.
        split; [by apply Forall2_app; [apply Forall2_fmap_l|]|].
        by rewrite <- !app_assoc.
    + right. split; [by intros (_ & _ & ?)|by exists msg].
Qed.

Lemma resolved_Forall2 self pairs requests :
  Forall2 (λ pair request, table_lookup self pair.1 pair.2 = Some request)
    pairs requests →
  resolved self pairs = requests.
Proof.
  unfold resolved. induction 1 as [|p r ps rs Hp _ IH]; [done|].
  cbn. by rewrite Hp, IH.
Qed.

(** The last loop: with a response for every pair it cannot fail, and the
    entry made at step [j] holds the response at position [i + j]. *)
Lemma for_source_type_spec rs (i : nat) pairs result w :
  (i + length pairs ≤ length rs)%nat →
  ∃ new,
    for_source_type rs i pairs result w = (Returns (result ++ new), w) ∧
    (λ entry, (camera_name entry, image_type entry)) <$> new = pairs ∧
    (∀ j entry, new !! j = Some entry →
       rs !! (i + j)%nat = Some (image_response entry)).
Proof.
  revert i result. induction pairs as [|[name modality] pairs IH];
    intros i result Hlen.
  - exists []. split_and!; [by rewrite app_nil_r|done|by intros [|?] ? ?].
  - cbn in Hlen. destruct (lookup_lt_is_Some_2 rs i) as [r Hr]; [lia|].
    destruct (IH (S i) (result ++ [Build_ImageEntry name modality r]))
      as (new & Hrun & Htags & Hresp); [lia|].
    exists (Build_ImageEntry name modality r :: new). split_and!.
    + cbn [for_source_type]. rewrite bind_run. unfold getitem. rewrite Hr.
      cbn. rewrite Hrun. by rewrite <- app_assoc.
    + cbn. by rewrite Htags.
    + intros [|j] entry Hj.
      * injection Hj as <-. by rewrite Nat.add_0_r.
      * rewrite <- Nat.add_succ_comm. by apply Hresp.
Qed.

(** What the selective fetch does with a selector list: the three ways it
    can go, by the verdict of the validation and the answer of the client. *)
Lemma selective_fetch_rejected self camera_sources w :
  ¬ accepted IMAGE_TYPES_iter self ∅ camera_sources →
  ∃ msg, get_images_by_cameras IMAGE_TYPES_iter self camera_sources w
           = (Returns None, errored w msg).
Proof.
  intros Hrej. unfold get_images_by_cameras. rewrite bind_run.
  destruct (for_item_spec self camera_sources [] [] ∅ w)
    as [(Hacc & _)|(_ & msg & Hrun)]; [done|].
  rewrite Hrun. by exists msg.
Qed.

Lemma selective_fetch_unsupported self camera_sources w msg :
  accepted IMAGE_TYPES_iter self ∅ camera_sources →
  _image_client self
    (resolved self (requested_pairs IMAGE_TYPES_iter camera_sources))
    = Unsupported msg →
  get_images_by_cameras IMAGE_TYPES_iter self camera_sources w
    = (Returns None,
       errored
         (called w (resolved self
                      (requested_pairs IMAGE_TYPES_iter camera_sources)))
         ("UnsupportedPixelFormatRequestedError. "
          +:+ "Likely pixel_format is set wrong for some image request")).
Proof.
  intros Hacc Hcl. unfold get_images_by_cameras. rewrite bind_run.
  destruct (for_item_spec self camera_sources [] [] ∅ w)
    as [(_ & new & cs & Hnew & Hrun)|(Hrej & _)]; [|done].
  rewrite Hrun. apply resolved_Forall2 in Hnew. subst new.
  cbn [app]. run. by rewrite Hcl.
Qed.

Lemma selective_fetch_served self camera_sources rs w :
  accepted IMAGE_TYPES_iter self ∅ camera_sources →
  _image_client self
    (resolved self (requested_pairs IMAGE_TYPES_iter camera_sources))
    = Responses rs →
  (length (requested_pairs IMAGE_TYPES_iter camera_sources) ≤ length rs)%nat →
  ∃ entries,
    Forall2 (λ pair request, table_lookup self pair.1 pair.2 = Some request)
      (requested_pairs IMAGE_TYPES_iter camera_sources)
      (resolved self (requested_pairs IMAGE_TYPES_iter camera_sources)) ∧
    get_images_by_cameras IMAGE_TYPES_iter self camera_sources w
      = (Returns (Some entries),
         called w (resolved self
                     (requested_pairs IMAGE_TYPES_iter camera_sources))) ∧
    (λ entry, (camera_name entry, image_type entry)) <$> entries
      = requested_pairs IMAGE_TYPES_iter camera_sources ∧
    (∀ i entry, entries !! i = Some entry →
       rs !! i = Some (image_response entry)).
Proof.
  intros Hacc Hcl Hlen. unfold get_images_by_cameras. rewrite bind_run.
  destruct (for_item_spec self camera_sources [] [] ∅ w)
    as [(_ & new & cs & Hnew & Hrun)|(Hrej & _)]; [|done].
  rewrite Hrun. pose proof (resolved_Forall2 _ _ _ Hnew) as Hres.
  rewrite Hres in Hcl |- *. cbn [app].
  destruct (for_source_type_spec rs 0
              (requested_pairs IMAGE_TYPES_iter camera_sources) []
              (called w new)) as (entries & Hloop & Htags & Hresp); [done|].
  exists entries. split_and!; [done| |done|done].
  rewrite bind_run. unfold try_except at 1. rewrite bind_run.
  unfold get_image at 1. rewrite Hcl. cbn [mret M_mret M_ret].
  rewrite bind_run. fold (called w new). rewrite Hloop. reflexivity.
Qed.

(** C3: a selector list in which a camera appears in two selectors, or
    which asks for a (camera, modality) pair the lookup table does not hold,
    makes the selective fetch log one error and return the absent result; the
    trace of remote calls is what it was. *)
Theorem selective_fetch_rejects_before_calling self camera_sources w :
  (∃ i j name,
     i ≠ j ∧
     (CameraSource.camera_name <$> camera_sources) !! i = Some name ∧
     (CameraSource.camera_name <$> camera_sources) !! j = Some name)
  ∨ (∃ item modality,
       item ∈ camera_sources ∧
       modality ∈ match CameraSource.image_types item with
                  | Some image_types => image_types
                  | None => elements IMAGE_TYPES
                  end ∧
       table_lookup self (CameraSource.camera_name item) modality = None) →
  ∃ msg,
    get_images_by_cameras IMAGE_TYPES_iter self camera_sources w
      = (Returns None, {| log := log w ++ [(ERROR, msg)]; rpc := rpc w |}).
Proof.
  intros Hbad. apply selective_fetch_rejected. intros (Hnd & _ & Hpairs).
  destruct Hbad as [(i & j & name & Hij & Hi & Hj)
                   |(item & modality & Hitem & Hm & Hnone)].
  - apply Hij. by eapply NoDup_lookup.
  - destruct (Hpairs (CameraSource.camera_name item, modality)) as [r Hr];
      [|cbn in Hr; congruence].
    unfold requested_pairs. apply list_elem_of_bind. exists item.
    split; [|done]. apply list_elem_of_fmap. exists modality.
    split; [done|]. unfold requested_types.
    destruct (CameraSource.image_types item); [done|].
    cbn. by rewrite IMAGE_TYPES_iter_perm.
Qed.

(** C9: on the empty selector list the selective fetch makes one remote
    call, with the empty batch; and when the client answers it, the fetch
    returns the empty list, a present result, with nothing logged. *)
Theorem empty_selection_is_dispatched self w :
  rpc (get_images_by_cameras IMAGE_TYPES_iter self [] w).2 = rpc w ++ [[]] ∧
  (∀ rs,
     _image_client self [] = Responses rs →
     get_images_by_cameras IMAGE_TYPES_iter self [] w
       = (Returns (Some []), {| log := log w; rpc := rpc w ++ [[]] |}) ∧
     Some ([] : list (ImageEntry ImageResponse)) ≠ None).
Proof.
  split.
  - unfold get_images_by_cameras. cbn [for_item]. run.
    by destruct (_image_client self []).
  - intros rs Hcl. split; [|done].
    unfold get_images_by_cameras. cbn [for_item]. run. by rewrite Hcl.
Qed.

Lemma explicit_requested_pairs (camera_sources : list CameraSource.t) :
  Forall (λ item, is_Some (CameraSource.image_types item)) camera_sources →
  requested_pairs IMAGE_TYPES_iter camera_sources
    = explicit_pairs camera_sources.
Proof.
  unfold requested_pairs, explicit_pairs, requested_types.
  induction 1 as [|item camera_sources [l Hl] _ IH]; [done|].
  cbn. by rewrite Hl, IH.
Qed.

(** C4, amended: a selector list whose selectors all list their modalities,
    that names no camera twice and asks only for pairs the lookup table
    holds, is served in the caller's order whenever the client answers the
    batch with at least as many responses as it has requests. *)
Theorem selective_fetch_serves_accepted_selectors self camera_sources rs w :
  Forall (λ item, is_Some (CameraSource.image_types item)) camera_sources →
  NoDup (CameraSource.camera_name <$> camera_sources) →
  Forall (λ pair, is_Some (table_lookup self pair.1 pair.2))
    (explicit_pairs camera_sources) →
  _image_client self (resolved self (explicit_pairs camera_sources))
    = Responses rs →
  (length (explicit_pairs camera_sources) ≤ length rs)%nat →
  serves_in_caller_order IMAGE_TYPES_iter self camera_sources w.
Proof.
  intros Hexp Hnd Hpairs Hcl Hlen. unfold serves_in_caller_order.
  rewrite <- (explicit_requested_pairs _ Hexp) in *.
  destruct (selective_fetch_served self camera_sources rs w)
    as (entries & Hreq & Hrun & Htags & Hresp); [|done|done|].
  - split_and!; [done|by intros ? _ ?%elem_of_empty|by apply Forall_forall].
  - by exists rs, entries.
Qed.

(** ** Further properties of the accessors and of the bundled fetch *)

(** X1: a body accessor sends one batch holding the one raw request for its
    source and, when the client answers with a response list that has a
    first response, returns that response; nothing is logged. *)
Theorem body_accessor_returns_first_response self w (source : string)
    (accessor : SpotImages ImageResponse → M (option ImageResponse)) rs r :
  (source, accessor) ∈ body_accessors →
  _image_client self [raw_request source] = Responses rs →
  rs !! 0 = Some r →
  accessor self w = (Returns (Some r), called w [raw_request source]).
Proof.
  intros Hin. unfold body_accessors in Hin.
  repeat (apply elem_of_cons in Hin as [[= -> ->]|Hin]);
    [..|by apply elem_of_nil in Hin].
  all: intros Hcl Hr; unfold raw_request in *.
  all: unfold get_frontleft_rgb_image, get_frontright_rgb_image,
         get_left_rgb_image, get_right_rgb_image, get_back_rgb_image.
  all: run; by rewrite Hcl, Hr.
Qed.

(** X2: when the client answers a body accessor with the empty response
    list, the indexing of the first response raises [IndexError]; the
    accessor does not catch it and logs nothing. *)
Theorem body_accessor_raises_on_empty_response self w (source : string)
    (accessor : SpotImages ImageResponse → M (option ImageResponse)) :
  (source, accessor) ∈ body_accessors →
  _image_client self [raw_request source] = Responses [] →
  accessor self w = (Raises IndexError, called w [raw_request source]).
Proof.
  intros Hin. unfold body_accessors in Hin.
  repeat (apply elem_of_cons in Hin as [[= -> ->]|Hin]);
    [..|by apply elem_of_nil in Hin].
  all: intros Hcl; unfold raw_request in *.
  all: unfold get_frontleft_rgb_image, get_frontright_rgb_image,
         get_left_rgb_image, get_right_rgb_image, get_back_rgb_image.
  all: run; by rewrite Hcl.
Qed.


(** X4: the bundled fetch, on any request list and with or without an arm,
    answers a refusal of the client by logging the error it raised and
    returning the absent result; the one call has been made. *)
Theorem bundled_fetch_logs_unsupported self image_requests w msg :
  _image_client self image_requests = Unsupported msg →
  get_images self image_requests w
    = (Returns None,
       {| log := log w ++ [(ERROR, msg)]; rpc := rpc w ++ [image_requests] |}).
Proof. intros Hcl. unfold get_images. run. by rewrite Hcl. Qed.

(** X5: when the client answers the bundled fetch with fewer responses than
    the bundle has slots (six with an arm, five without), filling the bundle
    raises [IndexError]: no bundle, no absent result, nothing logged. *)
Theorem bundled_fetch_raises_on_short_response self image_requests rs w :
  _image_client self image_requests = Responses rs →
  (length rs < (if has_arm (_robot self) then 6 else 5))%nat →
  get_images self image_requests w
    = (Raises IndexError, called w image_requests).
Proof.
  intros Hcl Hlen. unfold get_images. run. rewrite Hcl.
  destruct (has_arm (_robot self)).
  - do 6 (destruct rs as [|? rs]; [reflexivity|]). cbn in Hlen. lia.
  - do 5 (destruct rs as [|? rs]; [reflexivity|]). cbn in Hlen. lia.
Qed.

(** X6: responses beyond the slots are ignored: with at least as many
    responses as slots the bundle is made of the first six (with an arm) or
    five (without) responses, in order. *)
Theorem bundled_fetch_ignores_spare_responses self image_requests rs w :
  _image_client self image_requests = Responses rs →
  ((if has_arm (_robot self) then 6 else 5) ≤ length rs)%nat →
  ∃ b,
    get_images self image_requests w
      = (Returns (Some b), called w image_requests) ∧
    astuple b = take (if has_arm (_robot self) then 6 else 5) rs ∧
    _fields b = slots (has_arm (_robot self)).
Proof.
  intros Hcl Hlen. unfold get_images. run. rewrite Hcl.
  destruct (has_arm (_robot self)).
  - do 6 (destruct rs as [|? rs]; [cbn in Hlen; lia|]). by eexists.
  - do 5 (destruct rs as [|? rs]; [cbn in Hlen; lia|]). by eexists.
Qed.

(** X7: a refusal of the client reaches the log through every body
    accessor: the accessor logs the error the client raised and returns the
    absent result, the one call made. *)
Theorem body_accessor_logs_unsupported self w msg (source : string)
    (accessor : SpotImages ImageResponse → M (option ImageResponse)) :
  (source, accessor) ∈ body_accessors →
  _image_client self [raw_request source] = Unsupported msg →
  accessor self w
    = (Returns None,
       {| log := log w ++ [(ERROR, msg)];
          rpc := rpc w ++ [[raw_request source]] |}).
Proof.
  intros Hin. unfold body_accessors in Hin.
  repeat (apply elem_of_cons in Hin as [[= -> ->]|Hin]);
    [..|by apply elem_of_nil in Hin].
  all: intros Hcl; unfold raw_request in *.
  all: unfold get_frontleft_rgb_image, get_frontright_rgb_image,
         get_left_rgb_image, get_right_rgb_image, get_back_rgb_image.
  all: run; by rewrite Hcl.
Qed.

(** X8: every entry of the lookup table asks for the source that
    [IMAGE_SOURCES_BY_CAMERA] gives its camera and modality, at quality 75,
    encoded as JPEG when it is a visual entry and raw otherwise. *)
Theorem lookup_table_entries_follow_sources robot client rgb w :
  ∃ self w',
    __init__ robot client rgb w = (Returns self, w') ∧
    ∀ camera modality request,
      table_lookup self camera modality = Some request →
      Some (image_source_name request) = source_of camera modality ∧
      quality_percent request = Some 75%Z ∧
      image_format request =
        Some (if (modality =? "visual")%string then FORMAT_JPEG else FORMAT_RAW).
Proof.
  eexists _, _. split; [apply init_constructed|].
  apply (table_lookup_Forall (λ camera modality request,
    Some (image_source_name request) = source_of camera modality ∧
    quality_percent request = Some 75%Z ∧
    image_format request =
      Some (if (modality =? "visual")%string then FORMAT_JPEG else FORMAT_RAW))).
  destruct robot as [[]], rgb; vm_compute; exact I.
Qed.

(** X9: with a client that answers a batch request by request, the visual
    and the depth bundle hold under each slot the answer to a request for
    the source of the camera of that name. *)
Theorem visual_and_depth_bundles_hold_their_cameras robot
    (answer : ImageRequest → ImageResponse) rgb w :
  ∃ self w',
    __init__ robot (λ image_requests, Responses (answer <$> image_requests))
      rgb w = (Returns self, w') ∧
    (∃ b, (get_camera_images self w').1 = Returns (Some b) ∧
          ∀ slot, slot ∈ slots (has_arm robot) →
            ∃ request, getattr b slot = Some (answer request) ∧
                       Some (image_source_name request)
                         = source_of slot "visual") ∧
    (∃ b, (get_depth_images self w').1 = Returns (Some b) ∧
          ∀ slot, slot ∈ slots (has_arm robot) →
            ∃ request, getattr b slot = Some (answer request) ∧
                       Some (image_source_name request)
                         = source_of slot "depth").
Proof.
  eexists _, _. split; [apply init_constructed|].
  destruct w as [l c].
  destruct robot as [[]], rgb; split.
  all: eexists; split; [vm_compute; reflexivity|].
  all: intros slot Hslot; cbn in Hslot.
  all: repeat (apply elem_of_cons in Hslot as [->|Hslot]);
    [..|by apply elem_of_nil in Hslot].
  all: eexists; split; vm_compute; reflexivity.
Qed.

(** ** Further properties of the selective fetch *)

Lemma accepted_intro self (camera_sources : list CameraSource.t) :
  NoDup (CameraSource.camera_name <$> camera_sources) →
  Forall (λ pair, is_Some (table_lookup self pair.1 pair.2))
    (requested_pairs IMAGE_TYPES_iter camera_sources) →
  accepted IMAGE_TYPES_iter self ∅ camera_sources.
Proof.
  intros Hnd Hpairs.
  split_and!; [done|by intros ? _ ?%elem_of_empty|by apply Forall_forall].
Qed.

Lemma for_requested_type_cons self name modality modalities requests pairs w :
  for_requested_type self name (modality :: modalities) (requests, pairs) w =
    match table_lookup self name modality with
    | Some request =>
        for_requested_type self name modalities
          (requests ++ [request], pairs ++ [(name, modality)]) w
    | None =>
        (Returns (Return_ None),
         errored w ("Unexpected camera name '" +:+ name
                    +:+ "' or image type '" +:+ modality +:+ "'"))
    end.
Proof.
  cbn [for_requested_type]. rewrite bind_run. unfold try_except.
  rewrite bind_run, getitem2_run.
  by destruct (table_lookup self name modality).
Qed.

(** The loops run a list in two parts: the second part starts from what the
    first part left, unless the first part left the function. *)
Lemma for_requested_type_app self name l1 l2 st w :
  for_requested_type self name (l1 ++ l2) st w =
    match for_requested_type self name l1 st w with
    | (Returns (Continue st'), w') => for_requested_type self name l2 st' w'
    | (Returns (Return_ v), w') => (Returns (Return_ v), w')
    | (Raises e, w') => (Raises e, w')
    end.
Proof.
  revert st. induction l1 as [|modality l1 IH]; intros [requests pairs]; [done|].
  rewrite <- app_comm_cons, !for_requested_type_cons.
  destruct (table_lookup self name modality); [apply IH|done].
Qed.

Lemma for_item_app self l1 l2 st w :
  for_item IMAGE_TYPES_iter self (l1 ++ l2) st w =
    match for_item IMAGE_TYPES_iter self l1 st w with
    | (Returns (Continue st'), w') => for_item IMAGE_TYPES_iter self l2 st' w'
    | (Returns (Return_ v), w') => (Returns (Return_ v), w')
    | (Raises e, w') => (Raises e, w')
    end.
Proof.
  revert st w. induction l1 as [|item l1 IH]; intros [[requests pairs] seen] w;
    [done|].
  rewrite <- app_comm_cons, !for_item_cons.
  destruct (decide (CameraSource.camera_name item ∈ seen)); [done|].
  rewrite !bind_run.
  destruct (for_requested_type self (CameraSource.camera_name item)
              (requested_types IMAGE_TYPES_iter item) (requests, pairs) w)
    as [[[[requests' pairs']|v]|e] w']; [apply IH|done|done].
Qed.

(** An accepted list leaves the loop with the cameras seen so far. *)
Lemma for_item_accepted self camera_sources requests pairs seen w :
  accepted IMAGE_TYPES_iter self seen camera_sources →
  for_item IMAGE_TYPES_iter self camera_sources (requests, pairs, seen) w
    = (Returns (Continue
         (requests
            ++ resolved self (requested_pairs IMAGE_TYPES_iter camera_sources),
          pairs ++ requested_pairs IMAGE_TYPES_iter camera_sources,
          seen ∪ list_to_set (CameraSource.camera_name <$> camera_sources))),
       w).
Proof.
  revert requests pairs seen.
  induction camera_sources as [|item camera_sources IH];
    intros requests pairs seen.
  - intros _. cbn. by rewrite !app_nil_r, (right_id_L ∅ (∪)).
  - rewrite accepted_cons, for_item_cons. intros (Hfresh & Hrow & Hacc).
    destruct (decide (CameraSource.camera_name item ∈ seen)); [done|].
    rewrite bind_run.
    destruct (for_requested_type_spec self (CameraSource.camera_name item)
                (requested_types IMAGE_TYPES_iter item) requests pairs w)
      as [(new & Hnew & Hrun)|((m & Hm & Hnone) & _)].
    2: { specialize (Hrow m Hm). rewrite Hnone in Hrow. by destruct Hrow. }
    rewrite Hrun, (IH _ _ _ Hacc), requested_pairs_cons.
    unfold resolved. rewrite omap_app, fmap_cons, list_to_set_cons.
    rewrite <- !app_assoc, (assoc_L (∪)). repeat f_equal.
    clear -Hnew. induction Hnew as [|???? Hx _ IHn]; [done|].
    cbn. by rewrite Hx, IHn.
Qed.

Lemma for_source_type_world rs (i : nat) pairs result w :
  (for_source_type (ImageResponse := ImageResponse) rs i pairs result w).2 = w.
Proof.
  revert i result. induction pairs as [|[name modality] pairs IH];
    intros i result; [done|].
  cbn [for_source_type]. rewrite bind_run. unfold getitem.
  destruct (rs !! i); [apply IH|done].
Qed.

Lemma for_source_type_short rs (i : nat) pairs
    (result : list (ImageEntry ImageResponse)) w :
  (i ≤ length rs)%nat →
  (length rs < i + length pairs)%nat →
  for_source_type rs i pairs result w = (Raises IndexError, w).
Proof.
  revert i result. induction pairs as [|[name modality] pairs IH];
    intros i result Hi Hlen; cbn in Hlen; [lia|].
  cbn [for_source_type]. rewrite bind_run. unfold getitem.
  destruct (rs !! i) as [r|] eqn:Hr; [|done].
  apply lookup_lt_Some in Hr. cbn. apply IH; lia.
Qed.

(** X10: any selector list that names no camera twice and asks only for
    pairs of the lookup table is served in order, the selectors without
    modalities expanded in the iteration order of [IMAGE_TYPES]: one request
    per pair in one batch, one entry per pair, each tagged with its pair and
    holding the response at its position; spare responses are ignored. *)
Theorem selective_fetch_serves_omitted_modalities self camera_sources rs w :
  NoDup (CameraSource.camera_name <$> camera_sources) →
  Forall (λ pair, is_Some (table_lookup self pair.1 pair.2))
    (requested_pairs IMAGE_TYPES_iter camera_sources) →
  _image_client self
    (resolved self (requested_pairs IMAGE_TYPES_iter camera_sources))
    = Responses rs →
  (length (requested_pairs IMAGE_TYPES_iter camera_sources) ≤ length rs)%nat →
  ∃ entries,
    get_images_by_cameras IMAGE_TYPES_iter self camera_sources w
      = (Returns (Some entries),
         called w (resolved self
                     (requested_pairs IMAGE_TYPES_iter camera_sources))) ∧
    Forall2 (λ pair request, table_lookup self pair.1 pair.2 = Some request)
      (requested_pairs IMAGE_TYPES_iter camera_sources)
      (resolved self (requested_pairs IMAGE_TYPES_iter camera_sources)) ∧
    (λ entry, (camera_name entry, image_type entry)) <$> entries
      = requested_pairs IMAGE_TYPES_iter camera_sources ∧
    (∀ i entry, entries !! i = Some entry →
       rs !! i = Some (image_response entry)).
Proof.
  intros Hnd Hpairs Hcl Hlen.
  destruct (selective_fetch_served self camera_sources rs w
              (accepted_intro _ _ Hnd Hpairs) Hcl Hlen)
    as (entries & ? & ? & ? & ?).
  by exists entries.
Qed.

(** X11: when the client refuses the batch of an accepted selector list,
    the selective fetch logs its own fixed message, not the error the client
    raised, and returns the absent result. *)
Theorem selective_fetch_logs_unsupported self camera_sources w msg :
  NoDup (CameraSource.camera_name <$> camera_sources) →
  Forall (λ pair, is_Some (table_lookup self pair.1 pair.2))
    (requested_pairs IMAGE_TYPES_iter camera_sources) →
  _image_client self
    (resolved self (requested_pairs IMAGE_TYPES_iter camera_sources))
    = Unsupported msg →
  get_images_by_cameras IMAGE_TYPES_iter self camera_sources w
    = (Returns None,
       {| log := log w ++
            [(ERROR, "UnsupportedPixelFormatRequestedError. Likely pixel_format is set wrong for some image request")];
          rpc := rpc w ++
            [resolved self (requested_pairs IMAGE_TYPES_iter camera_sources)] |}).
Proof.
  intros Hnd Hpairs Hcl.
  by rewrite (selective_fetch_unsupported self camera_sources w msg
                (accepted_intro _ _ Hnd Hpairs) Hcl).
Qed.

(** X12: when the client answers an accepted selector list with fewer
    responses than it was sent requests, building the entries raises
    [IndexError]: no entry is returned, nothing is logged. *)
Theorem selective_fetch_raises_on_short_response self camera_sources rs w :
  NoDup (CameraSource.camera_name <$> camera_sources) →
  Forall (λ pair, is_Some (table_lookup self pair.1 pair.2))
    (requested_pairs IMAGE_TYPES_iter camera_sources) →
  _image_client self
    (resolved self (requested_pairs IMAGE_TYPES_iter camera_sources))
    = Responses rs →
  (length rs < length (requested_pairs IMAGE_TYPES_iter camera_sources))%nat →
  get_images_by_cameras IMAGE_TYPES_iter self camera_sources w
    = (Raises IndexError,
       called w (resolved self
                   (requested_pairs IMAGE_TYPES_iter camera_sources))).
Proof.
  intros Hnd Hpairs Hcl Hlen. unfold get_images_by_cameras.
  rewrite bind_run, (for_item_accepted _ _ _ _ _ _ (accepted_intro _ _ Hnd Hpairs)).
  cbn [app]. rewrite bind_run. unfold try_except at 1. rewrite bind_run.
  unfold get_image at 1. rewrite Hcl. cbn [mret M_mret M_ret].
  rewrite bind_run, for_source_type_short; [done|lia|done].
Qed.

Lemma selective_fetch_answered_world self camera_sources rs w :
  accepted IMAGE_TYPES_iter self ∅ camera_sources →
  _image_client self
    (resolved self (requested_pairs IMAGE_TYPES_iter camera_sources))
    = Responses rs →
  (get_images_by_cameras IMAGE_TYPES_iter self camera_sources w).2
    = called w (resolved self
                  (requested_pairs IMAGE_TYPES_iter camera_sources)).
Proof.
  intros Hacc Hcl. unfold get_images_by_cameras.
  rewrite bind_run, (for_item_accepted _ _ _ _ _ _ Hacc).
  cbn [app]. rewrite bind_run. unfold try_except at 1. rewrite bind_run.
  unfold get_image at 1. rewrite Hcl. cbn [mret M_mret M_ret].
  rewrite bind_run.
  pose proof (for_source_type_world rs 0
                (requested_pairs IMAGE_TYPES_iter camera_sources) []
                (called w (resolved self
                   (requested_pairs IMAGE_TYPES_iter camera_sources)))) as Hw.
  fold (called w (resolved self
                    (requested_pairs IMAGE_TYPES_iter camera_sources))).
  by destruct (for_source_type rs 0 _ _ _) as [[?|?] ?].
Qed.

Lemma constructed_table_domain robot (client : ImageClient ImageResponse) rgb
    (camera modality : string) :
  is_Some (table_lookup (constructed robot client rgb) camera modality) ↔
  camera ∈ slots (has_arm robot) ∧ modality ∈ IMAGE_TYPES.
Proof.
  split.
  - intros [request Hl]. revert camera modality request Hl.
    apply (table_lookup_Forall
             (λ c m _, c ∈ slots (has_arm robot) ∧ m ∈ IMAGE_TYPES)).
    destruct robot as [[]], rgb; vm_compute; exact I.
  - intros [Hc Hm%elem_of_IMAGE_TYPES].
    destruct robot as [[]], rgb; cbn in Hc.
    all: repeat (apply elem_of_cons in Hc as [->|Hc]);
      [..|by apply elem_of_nil in Hc].
    all: destruct Hm as [->|[->| ->]]; vm_compute; eauto.
Qed.

Lemma elem_of_IMAGE_TYPES_iter (modality : string) :
  modality ∈ IMAGE_TYPES_iter ↔ modality ∈ IMAGE_TYPES.
Proof. by rewrite IMAGE_TYPES_iter_perm, elem_of_elements. Qed.

(** X13: on a constructed object the selective fetch reaches the client,
    and then with exactly the batch of the requested pairs, if and only if
    no camera is named twice, every selector without modalities names a
    camera of the robot, and every listed modality is one of the three and
    listed for a camera of the robot.  A selector with an empty list of
    modalities passes whatever camera it names. *)
Theorem selective_fetch_calls_iff_known_cameras
    robot client rgb w1 self w2 camera_sources w :
  __init__ robot client rgb w1 = (Returns self, w2) →
  (NoDup (CameraSource.camera_name <$> camera_sources) ∧
   Forall (λ item,
             match CameraSource.image_types item with
             | None => CameraSource.camera_name item ∈ slots (has_arm robot)
             | Some image_types =>
                 Forall (λ modality,
                           CameraSource.camera_name item ∈ slots (has_arm robot)
                           ∧ modality ∈ IMAGE_TYPES) image_types
             end) camera_sources)
  ↔ rpc (get_images_by_cameras IMAGE_TYPES_iter self camera_sources w).2
      = rpc w ++
        [resolved self (requested_pairs IMAGE_TYPES_iter camera_sources)].
Proof.
  rewrite init_constructed. intros [= <- _].
  set (self := constructed robot client rgb).
  assert (Hacc : accepted IMAGE_TYPES_iter self ∅ camera_sources ↔
    NoDup (CameraSource.camera_name <$> camera_sources) ∧
    Forall (λ item,
              match CameraSource.image_types item with
              | None => CameraSource.camera_name item ∈ slots (has_arm robot)
              | Some image_types =>
                  Forall (λ modality,
                            CameraSource.camera_name item ∈ slots (has_arm robot)
                            ∧ modality ∈ IMAGE_TYPES) image_types
              end) camera_sources).
  { unfold accepted. split.
    - intros (Hnd & _ & Hpairs). split; [done|].
      apply Forall_forall. intros item Hitem.
      assert (Hpair : ∀ modality,
                modality ∈ requested_types IMAGE_TYPES_iter item →
                CameraSource.camera_name item ∈ slots (has_arm robot)
                ∧ modality ∈ IMAGE_TYPES).
      { intros modality Hm. apply constructed_table_domain with client rgb.
        apply (Hpairs (CameraSource.camera_name item, modality)).
        apply list_elem_of_bind. exists item. split; [|done].
        apply list_elem_of_fmap. by exists modality. }
      unfold requested_types in Hpair.
      destruct (CameraSource.image_types item) as [image_types|]; cbn in Hpair.
      + by apply Forall_forall.
      + apply (Hpair "visual"). apply elem_of_IMAGE_TYPES_iter.
        apply elem_of_IMAGE_TYPES. by left.
    - intros (Hnd & Hall). split_and!; [done|by intros ? _ ?%elem_of_empty|].
      intros [name modality]
        (item & (m & [= -> ->] & Hm)%list_elem_of_fmap & Hitem)%list_elem_of_bind.
      rewrite Forall_forall in Hall. specialize (Hall item Hitem).
      apply constructed_table_domain. unfold requested_types in Hm.
      destruct (CameraSource.image_types item) as [image_types|]; cbn in Hm.
      + rewrite Forall_forall in Hall. by apply Hall.
      + split; [done|by apply elem_of_IMAGE_TYPES_iter]. }
  rewrite <- Hacc. split.
  - intros Ha. unfold get_images_by_cameras.
    destruct (_image_client self
                (resolved self (requested_pairs IMAGE_TYPES_iter camera_sources)))
      as [rs|msg] eqn:Hcl.
    + fold (get_images_by_cameras IMAGE_TYPES_iter self camera_sources w).
      by rewrite (selective_fetch_answered_world _ _ rs).
    + fold (get_images_by_cameras IMAGE_TYPES_iter self camera_sources w).
      by rewrite (selective_fetch_unsupported _ _ _ msg).
  - intros Hrpc.
    destruct (for_item_spec self camera_sources [] [] ∅ w)
      as [(Ha & _)|(Hrej & _)]; [done|].
    destruct (selective_fetch_rejected self camera_sources w Hrej) as [msg Hrun].
    rewrite Hrun in Hrpc. cbn in Hrpc.
    apply (f_equal length) in Hrpc. rewrite length_app in Hrpc. cbn in Hrpc. lia.
Qed.

(** X14: every method is frugal.  From any world a single-image accessor,
    the bundled fetch and the selective fetch make at most one remote call
    and log at most one record; that record is an error and comes only with
    the absent result; nothing the world held is removed or reordered. *)
Theorem every_method_is_frugal self :
  (∀ accessor : SpotImages ImageResponse → M (option ImageResponse),
     accessor ∈ single_image_accessors → frugal (accessor self)) ∧
  (∀ image_requests, frugal (get_images self image_requests)) ∧
  (∀ camera_sources,
     frugal (get_images_by_cameras IMAGE_TYPES_iter self camera_sources)).
Proof.
  split_and!.
  - intros accessor Hin w. unfold single_image_accessors in Hin.
    repeat (apply elem_of_cons in Hin as [->|Hin]);
      [..|by apply elem_of_nil in Hin].
    all: unfold get_frontleft_rgb_image, get_frontright_rgb_image,
           get_left_rgb_image, get_right_rgb_image, get_back_rgb_image,
           get_hand_rgb_image.
    6: destruct (has_arm (_robot self)); cbn [negb];
         [|destruct w; frugal_with (@nil (level * string))
                         (@nil (list ImageRequest))].
    all: run; destruct (_image_client self _) as [[|r rs]|msg].
    all: first [ frugal_with (@nil (level * string)) [[raw_request "frontleft_fisheye_image"]]
               | frugal_with (@nil (level * string)) [[raw_request "frontright_fisheye_image"]]
               | frugal_with (@nil (level * string)) [[raw_request "left_fisheye_image"]]
               | frugal_with (@nil (level * string)) [[raw_request "right_fisheye_image"]]
               | frugal_with (@nil (level * string)) [[raw_request "back_fisheye_image"]]
               | frugal_with (@nil (level * string)) [[hand_rgb_request]]
               | frugal_with [(ERROR, msg)] [[raw_request "frontleft_fisheye_image"]]
               | frugal_with [(ERROR, msg)] [[raw_request "frontright_fisheye_image"]]
               | frugal_with [(ERROR, msg)] [[raw_request "left_fisheye_image"]]
               | frugal_with [(ERROR, msg)] [[raw_request "right_fisheye_image"]]
               | frugal_with [(ERROR, msg)] [[raw_request "back_fisheye_image"]] ].
  - intros image_requests w.
    destruct (_image_client self image_requests) as [rs|msg] eqn:Hcl.
    + assert (Hw : (get_images self image_requests w).2
                   = called w image_requests).
      { unfold get_images. run. rewrite Hcl.
        destruct (has_arm (_robot self));
          by destruct rs as [|? [|? [|? [|? [|? [|? rs]]]]]]. }
      exists [], [image_requests]. rewrite Hw.
      split_and!; [cbn; by rewrite app_nil_r|cbn; lia|cbn; lia|constructor|done].
    + rewrite (get_images_logs_unsupported self image_requests w msg Hcl).
      frugal_with [(ERROR, msg)] [image_requests].
  - intros camera_sources w.
    destruct (for_item_spec self camera_sources [] [] ∅ w)
      as [(Ha & _)|(Hrej & _)].
    + destruct (_image_client self
                  (resolved self (requested_pairs IMAGE_TYPES_iter camera_sources)))
        as [rs|msg] eqn:Hcl.
      * exists [], [resolved self (requested_pairs IMAGE_TYPES_iter camera_sources)].
        rewrite (selective_fetch_answered_world _ _ rs w Ha Hcl).
        split_and!; [cbn; by rewrite app_nil_r|cbn; lia|cbn; lia|constructor|done].
      * rewrite (selective_fetch_unsupported _ _ _ msg Ha Hcl).
        eexists [_], [_]. split_and!; [reflexivity|cbn; lia|cbn; lia| |done].
        by repeat constructor.
    + destruct (selective_fetch_rejected self camera_sources w Hrej) as [msg ->].
      exists [(ERROR, msg)], []. 
      split_and!; [cbn; by rewrite app_nil_r|cbn; lia|cbn; lia| |done].
      by repeat constructor.
Qed.

(** X15: the selective fetch reports the first camera named twice: when
    the selectors before a selector are accepted and one of them names the
    same camera, the call logs the duplicate message for that camera and
    returns the absent result without reaching the client, whatever the
    selectors after it hold. *)
Theorem selective_fetch_reports_first_duplicate self before item after w :
  NoDup (CameraSource.camera_name <$> before) →
  Forall (λ pair, is_Some (table_lookup self pair.1 pair.2))
    (requested_pairs IMAGE_TYPES_iter before) →
  CameraSource.camera_name item ∈ CameraSource.camera_name <$> before →
  get_images_by_cameras IMAGE_TYPES_iter self (before ++ item :: after) w
    = (Returns None,
       {| log := log w ++
            [(ERROR, "Duplicated camera source for camera "
                     +:+ CameraSource.camera_name item)];
          rpc := rpc w |}).
Proof.
  intros Hnd Hpairs Hdup. unfold get_images_by_cameras.
  rewrite bind_run, for_item_app.
  rewrite (for_item_accepted _ _ _ _ _ _ (accepted_intro _ _ Hnd Hpairs)).
  rewrite for_item_cons.
  destruct (decide _) as [_|Hfresh]; [done|].
  destruct Hfresh. apply elem_of_union. right. by apply elem_of_list_to_set.
Qed.

(** X16: the selective fetch reports the first pair the lookup table does
    not hold: when the selectors before a selector are accepted, none of
    them names its camera, and its modalities up to one are in the table
    for its camera but that one is not, the call logs the message naming
    that camera and that modality and returns the absent result without
    reaching the client. *)
Theorem selective_fetch_reports_first_unknown_pair
    self before item after found modality later w :
  NoDup (CameraSource.camera_name <$> before) →
  Forall (λ pair, is_Some (table_lookup self pair.1 pair.2))
    (requested_pairs IMAGE_TYPES_iter before) →
  CameraSource.camera_name item ∉ CameraSource.camera_name <$> before →
  requested_types IMAGE_TYPES_iter item = found ++ modality :: later →
  Forall (λ m, is_Some (table_lookup self (CameraSource.camera_name item) m))
    found →
  table_lookup self (CameraSource.camera_name item) modality = None →
  get_images_by_cameras IMAGE_TYPES_iter self (before ++ item :: after) w
    = (Returns None,
       {| log := log w ++
            [(ERROR, "Unexpected camera name '"
                     +:+ CameraSource.camera_name item
                     +:+ "' or image type '" +:+ modality +:+ "'")];
          rpc := rpc w |}).
Proof.
  intros Hnd Hpairs Hfresh Htypes Hfound Hnone. unfold get_images_by_cameras.
  rewrite bind_run, for_item_app.
  rewrite (for_item_accepted _ _ _ _ _ _ (accepted_intro _ _ Hnd Hpairs)).
  rewrite for_item_cons.
  destruct (decide _) as [Hdup|_].
  { apply elem_of_union in Hdup as [[]%elem_of_empty|Hdup].
    by apply elem_of_list_to_set in Hdup. }
  rewrite bind_run, Htypes, for_requested_type_app.
  destruct (for_requested_type_spec self (CameraSource.camera_name item)
              found ([] ++ resolved self (requested_pairs IMAGE_TYPES_iter before))
              ([] ++ requested_pairs IMAGE_TYPES_iter before) w)
    as [(new & _ & ->)|((m & Hm & Hmissing) & _)].
  2: { rewrite Forall_forall in Hfound. specialize (Hfound m Hm).
       rewrite Hmissing in Hfound. by destruct Hfound. }
  by rewrite for_requested_type_cons, Hnone.
Qed.

End Dispatch.

(** * The theorems at work on sample robots *)

(** C4 as first stated fails: every selector of [same_camera_twice] lists
    its modalities, and the fetch sends nothing and returns the absent
    result, because the list names a camera twice. *)
Lemma same_camera_twice_is_not_served :
  Forall (λ item, is_Some (CameraSource.image_types item)) same_camera_twice ∧
  get_images_by_cameras (elements IMAGE_TYPES) spot same_camera_twice w0
    = (Returns None,
       {| log := [(ERROR, "Duplicated camera source for camera frontleft")];
          rpc := [] |}) ∧
  ¬ serves_in_caller_order (elements IMAGE_TYPES) spot same_camera_twice w0.
Proof.
  split_and!.
  - repeat constructor; by eexists.
  - vm_compute. reflexivity.
  - intros (rs & entries & _ & _ & Hrun & _). vm_compute in Hrun. discriminate.
Qed.

Lemma selective_fetch_serves_two_cameras :
  Forall (λ item, is_Some (CameraSource.image_types item)) two_cameras ∧
  NoDup (CameraSource.camera_name <$> two_cameras) ∧
  Forall (λ pair, is_Some (table_lookup spot pair.1 pair.2))
    (explicit_pairs two_cameras) ∧
  serves_in_caller_order (elements IMAGE_TYPES) spot two_cameras w0.
Proof.
  assert (H1 : Forall (λ item, is_Some (CameraSource.image_types item))
                 two_cameras) by by_evaluation.
  assert (H2 : NoDup (CameraSource.camera_name <$> two_cameras))
    by by_evaluation.
  assert (H3 : Forall (λ pair, is_Some (table_lookup spot pair.1 pair.2))
                 (explicit_pairs two_cameras)) by by_evaluation.
  split_and!; [done..|].
  apply (selective_fetch_serves_accepted_selectors (elements IMAGE_TYPES)
           spot two_cameras
           ["frontleft_fisheye_image"; "back_depth"; "back_depth_in_visual_frame"]
           w0 H1 H2 H3).
  - vm_compute. reflexivity.
  - vm_compute. lia.
Defined.

Lemma selective_fetch_rejects_samples :
  (∃ msg, get_images_by_cameras (elements IMAGE_TYPES) spot same_camera_twice w0
            = (Returns None, {| log := log w0 ++ [(ERROR, msg)]; rpc := rpc w0 |})) ∧
  (∃ msg, get_images_by_cameras (elements IMAGE_TYPES) spot hand_camera_only w0
            = (Returns None, {| log := log w0 ++ [(ERROR, msg)]; rpc := rpc w0 |})).
Proof.
  split.
  - apply (selective_fetch_rejects_before_calling (elements IMAGE_TYPES)
             (reflexivity _) spot same_camera_twice w0).
    left. exists 0, 1, "frontleft". split_and!; [lia|reflexivity|reflexivity].
  - apply (selective_fetch_rejects_before_calling (elements IMAGE_TYPES)
             (reflexivity _) spot hand_camera_only w0).
    right. eexists _, "visual". split_and!; [by left|by_evaluation|].
    vm_compute. reflexivity.
Defined.

Lemma empty_selection_on_spot :
  get_images_by_cameras (elements IMAGE_TYPES) spot [] w0
    = (Returns (Some []), {| log := []; rpc := [[]] |}).
Proof.
  apply (proj2 (empty_selection_is_dispatched (elements IMAGE_TYPES) spot w0) []).
  vm_compute. reflexivity.
Defined.

Lemma bundled_fetch_on_spot :
  ∃ b,
    get_depth_images spot w0
      = (Returns (Some b), called w0 (_depth_image_requests spot)) ∧
    getattr b "back" = Some "back_depth" ∧
    _fields b = ["frontleft"; "frontright"; "left"; "right"; "back"].
Proof.
  destruct (bundled_fetch_fills_slots_in_order
              {| has_arm := false |} echo_client true w0 spot w0
              (get_depth_images, _depth_image_requests)
              ["frontleft_depth"; "frontright_depth"; "left_depth";
               "right_depth"; "back_depth"] w0)
    as (b & Hrun & Hfields & _ & _ & _ & _ & _ & Hback & _).
  - vm_compute. reflexivity.
  - right. left.
  - vm_compute. reflexivity.
  - vm_compute. reflexivity.
  - exists b. split_and!; [exact Hrun|exact Hback|exact Hfields].
Defined.

Lemma hand_accessor_on_both_robots :
  get_hand_rgb_image spot w0 = (Returns None, w0) ∧
  get_hand_rgb_image spot_with_arm w0
    = (Returns (Some "hand_color_image"), called w0 [hand_rgb_request]).
Proof.
  split.
  - apply (proj1 (hand_accessor_checks_arm_first spot w0)).
    vm_compute. reflexivity.
  - apply (proj2 (hand_accessor_checks_arm_first spot_with_arm w0)
             ["hand_color_image"] "hand_color_image").
    + vm_compute. reflexivity.
    + vm_compute. reflexivity.
    + reflexivity.
Defined.

Lemma refused_hand_accessor_logs_nothing :
  has_arm (_robot refused_spot_with_arm) = true ∧
  _image_client refused_spot_with_arm [hand_rgb_request]
    = Unsupported "unsupported pixel format" ∧
  get_hand_rgb_image refused_spot_with_arm w0
    = (Returns None, {| log := []; rpc := [[hand_rgb_request]] |}) ∧
  log (get_hand_rgb_image refused_spot_with_arm w0).2 = [].
Proof.
  assert (H1 : has_arm (_robot refused_spot_with_arm) = true)
    by (vm_compute; reflexivity).
  assert (H2 : _image_client refused_spot_with_arm [hand_rgb_request]
               = Unsupported "unsupported pixel format")
    by (vm_compute; reflexivity).
  split_and!; [done..| |];
    apply (hand_accessor_drops_unsupported_unlogged refused_spot_with_arm w0
             "unsupported pixel format" H1 H2).
Defined.

(** The same refusal through a body accessor is logged. *)
Example refused_back_accessor_logs :
  get_back_rgb_image refused_spot_with_arm w0
    = (Returns None,
       {| log := [(ERROR, "unsupported pixel format")];
          rpc := [[raw_request "back_fisheye_image"]] |}).
Proof. vm_compute. reflexivity. Qed.

(** ** The further properties at work *)

Lemma back_accessor_on_spot :
  get_back_rgb_image spot w0
    = (Returns (Some "back_fisheye_image"),
       called w0 [raw_request "back_fisheye_image"]).
Proof.
  apply (body_accessor_returns_first_response spot w0 "back_fisheye_image"
           get_back_rgb_image ["back_fisheye_image"] "back_fisheye_image").
  - do 4 right. left.
  - vm_compute. reflexivity.
  - reflexivity.
Defined.

Lemma back_accessor_on_silent_spot :
  get_back_rgb_image silent_spot w0
    = (Raises IndexError, called w0 [raw_request "back_fisheye_image"]).
Proof.
  apply (body_accessor_raises_on_empty_response silent_spot w0
           "back_fisheye_image" get_back_rgb_image).
  - do 4 right. left.
  - vm_compute. reflexivity.
Defined.


Lemma refused_depth_bundle_is_logged :
  get_images refused_spot_with_arm
    (_depth_image_requests refused_spot_with_arm) w0
    = (Returns None,
       {| log := log w0 ++ [(ERROR, "unsupported pixel format")];
          rpc := rpc w0 ++ [_depth_image_requests refused_spot_with_arm] |}).
Proof.
  apply (bundled_fetch_logs_unsupported refused_spot_with_arm
           (_depth_image_requests refused_spot_with_arm) w0
           "unsupported pixel format").
  vm_compute. reflexivity.
Defined.

Lemma depth_bundle_on_silent_spot :
  get_images silent_spot (_depth_image_requests silent_spot) w0
    = (Raises IndexError, called w0 (_depth_image_requests silent_spot)).
Proof.
  apply (bundled_fetch_raises_on_short_response silent_spot
           (_depth_image_requests silent_spot) [] w0).
  - vm_compute. reflexivity.
  - vm_compute. lia.
Defined.

Lemma depth_bundle_on_generous_spot :
  ∃ b,
    get_images generous_spot (_depth_image_requests generous_spot) w0
      = (Returns (Some b), called w0 (_depth_image_requests generous_spot)) ∧
    astuple b = ["frontleft_depth"; "frontright_depth"; "left_depth";
                 "right_depth"; "back_depth"].
Proof.
  destruct (bundled_fetch_ignores_spare_responses generous_spot
              (_depth_image_requests generous_spot)
              ["frontleft_depth"; "frontright_depth"; "left_depth";
               "right_depth"; "back_depth"; "spare"] w0)
    as (b & Hrun & Htuple & _).
  - vm_compute. reflexivity.
  - vm_compute. lia.
  - exists b. split; [exact Hrun|exact Htuple].
Defined.

Lemma refused_back_accessor_is_logged :
  get_back_rgb_image refused_spot_with_arm w0
    = (Returns None,
       {| log := log w0 ++ [(ERROR, "unsupported pixel format")];
          rpc := rpc w0 ++ [[raw_request "back_fisheye_image"]] |}).
Proof.
  apply (body_accessor_logs_unsupported refused_spot_with_arm w0
           "unsupported pixel format" "back_fisheye_image" get_back_rgb_image).
  - do 4 right. left.
  - vm_compute. reflexivity.
Defined.

Lemma hand_camera_is_served_in_full :
  ∃ entries,
    get_images_by_cameras (elements IMAGE_TYPES) spot_with_arm
      hand_camera_only w0
      = (Returns (Some entries),
         called w0 (resolved spot_with_arm
                      (requested_pairs (elements IMAGE_TYPES) hand_camera_only))) ∧
    image_response <$> entries
      = ["hand_color_image"; "hand_depth_in_hand_color_frame"; "hand_depth"].
Proof.
  assert (H1 : NoDup (CameraSource.camera_name <$> hand_camera_only))
    by by_evaluation.
  assert (H2 : Forall (λ pair, is_Some (table_lookup spot_with_arm pair.1 pair.2))
                 (requested_pairs (elements IMAGE_TYPES) hand_camera_only))
    by by_evaluation.
  destruct (selective_fetch_serves_omitted_modalities (elements IMAGE_TYPES)
              spot_with_arm hand_camera_only
              ["hand_color_image"; "hand_depth_in_hand_color_frame"; "hand_depth"]
              w0 H1 H2)
    as (entries & Hrun & _ & _ & _).
  - vm_compute. reflexivity.
  - vm_compute. lia.
  - exists entries. split; [exact Hrun|].
    vm_compute in Hrun. injection Hrun as <-. reflexivity.
Defined.

Lemma refused_selection_is_logged :
  get_images_by_cameras (elements IMAGE_TYPES) refused_spot_with_arm
    two_cameras w0
    = (Returns None,
       {| log := log w0 ++
            [(ERROR, "UnsupportedPixelFormatRequestedError. Likely pixel_format is set wrong for some image request")];
          rpc := rpc w0 ++
            [resolved refused_spot_with_arm
               (requested_pairs (elements IMAGE_TYPES) two_cameras)] |}).
Proof.
  assert (H1 : NoDup (CameraSource.camera_name <$> two_cameras))
    by by_evaluation.
  assert (H2 : Forall (λ pair, is_Some (table_lookup refused_spot_with_arm
                                          pair.1 pair.2))
                 (requested_pairs (elements IMAGE_TYPES) two_cameras))
    by by_evaluation.
  apply (selective_fetch_logs_unsupported (elements IMAGE_TYPES)
           refused_spot_with_arm two_cameras w0 "unsupported pixel format"
           H1 H2).
  vm_compute. reflexivity.
Defined.

Lemma selection_on_silent_spot :
  get_images_by_cameras (elements IMAGE_TYPES) silent_spot two_cameras w0
    = (Raises IndexError,
       called w0 (resolved silent_spot
                    (requested_pairs (elements IMAGE_TYPES) two_cameras))).
Proof.
  assert (H1 : NoDup (CameraSource.camera_name <$> two_cameras))
    by by_evaluation.
  assert (H2 : Forall (λ pair, is_Some (table_lookup silent_spot pair.1 pair.2))
                 (requested_pairs (elements IMAGE_TYPES) two_cameras))
    by by_evaluation.
  apply (selective_fetch_raises_on_short_response (elements IMAGE_TYPES)
           silent_spot two_cameras [] w0 H1 H2).
  - vm_compute. reflexivity.
  - vm_compute. lia.
Defined.

Lemma two_cameras_reach_the_client :
  rpc (get_images_by_cameras (elements IMAGE_TYPES) spot two_cameras w0).2
    = rpc w0 ++
      [resolved spot (requested_pairs (elements IMAGE_TYPES) two_cameras)].
Proof.
  assert (Hinit : __init__ {| has_arm := false |} echo_client true w0
                  = (Returns spot, w0)) by (vm_compute; reflexivity).
  apply (proj1 (selective_fetch_calls_iff_known_cameras
                  (elements IMAGE_TYPES) (reflexivity _)
                  {| has_arm := false |} echo_client true w0 spot w0
                  two_cameras w0 Hinit)).
  split; [by_evaluation|].
  unfold two_cameras.
  repeat (constructor; [cbn [CameraSource.image_types]; by_evaluation|]).
  constructor.
Defined.

Lemma second_frontleft_is_reported :
  get_images_by_cameras (elements IMAGE_TYPES) spot same_camera_twice w0
    = (Returns None,
       {| log := log w0 ++
            [(ERROR, "Duplicated camera source for camera frontleft")];
          rpc := rpc w0 |}).
Proof.
  apply (selective_fetch_reports_first_duplicate (elements IMAGE_TYPES) spot
           [ {| CameraSource.camera_name := "frontleft";
                CameraSource.image_types := Some ["visual"] |} ]
           {| CameraSource.camera_name := "frontleft";
              CameraSource.image_types := Some ["depth"] |} [] w0).
  - by_evaluation.
  - by_evaluation.
  - by_evaluation.
Defined.

Lemma thermal_is_reported :
  get_images_by_cameras (elements IMAGE_TYPES) spot unknown_modality w0
    = (Returns None,
       {| log := log w0 ++
            [(ERROR, "Unexpected camera name 'frontleft' or image type 'thermal'")];
          rpc := rpc w0 |}).
Proof.
  apply (selective_fetch_reports_first_unknown_pair (elements IMAGE_TYPES) spot
           [ {| CameraSource.camera_name := "back";
                CameraSource.image_types := Some ["depth"] |} ]
           {| CameraSource.camera_name := "frontleft";
              CameraSource.image_types := Some ["visual"; "thermal"; "depth"] |}
           [] ["visual"] "thermal" ["depth"] w0).
  - by_evaluation.
  - by_evaluation.
  - apply (bool_decide_unpack _). vm_compute. exact I.
  - reflexivity.
  - by_evaluation.
  - vm_compute. reflexivity.
Defined.
